(** * fmmgen example drivers and tree headers: a shallow embedding

    The development follows the four translation units of the repository:

    - [examples/fmm-dipole-reduced/src/peps/tree.hpp]  (module [FMM])
    - [example/bh-dipole/include/tree.hpp]             (module [BH])
    - [example/fmm-dipole-reduced/src/apps/scaling_test.cpp] (module [ScalingTest])
    - [examples/dipolar/potential-only/lazy.cpp]       (module [Lazy])

    The bodies of [build_tree], [split_cell], [add_child] and
    [interact_dehnen] are in translation units that are not among these
    four. Module [Facade] holds the parameter checks of the build entry as
    the specification describes them, marked as such, and takes the octree
    builder itself as given.

    C++ [double] is IEEE binary64 and is embedded with the Standard Library's
    [spec_float]; [size_t] is taken to be 64 bits wide and is embedded as
    [Z] with the wrap-around written out.

    A run of a driver ends by returning, by an exception that nothing
    catches, or in undefined behaviour ([Std.outcome]). Whether a request
    for storage is granted is part of the environment of a run
    ([Std.allocator]); the limits of [std::vector] and of [new double[n]]
    are those of libstdc++ and GCC on a 64-bit target. *)

From Stdlib Require Import ZArith List Bool Lia SpecFloat Ascii String.
From stdpp Require Import base numbers list strings pretty.

(** ** IEEE binary64 *)

Module Double.

Definition double : Type := spec_float.

Definition prec : Z := 53.
Definition emax : Z := 1024.

Definition add : double -> double -> double := SFadd prec emax.
Definition sub : double -> double -> double := SFsub prec emax.
Definition mul : double -> double -> double := SFmul prec emax.
Definition div : double -> double -> double := SFdiv prec emax.
Definition sqrt : double -> double := SFsqrt prec emax.
Definition ltb : double -> double -> bool := SFltb.
Definition leb : double -> double -> bool := SFleb.

(** [a > b] and [a <= b] as C++ evaluates them (false on NaN). *)
Definition gtb (a b : double) : bool := ltb b a.

Definition zero : double := S754_zero false.

(** The double nearest to the integer [z] (integer literals and
    integer-to-double conversions). *)
Definition of_Z (z : Z) : double := binary_normalize prec emax z 0 false.

End Double.

Abbreviation double := Double.double.

(** ** Machine integers *)

Module Word.

Definition size_t_width : Z := 64.

Definition SIZE_MAX : Z := 2 ^ size_t_width - 1.

(** Arithmetic on [size_t] is arithmetic modulo [2^64]. *)
Definition wrap64 (z : Z) : Z := z mod 2 ^ size_t_width.

End Word.

(** ** Raw pointers to [double]

    Every [double*] of the drivers points into one of the heap arrays the
    driver allocates; a pointer is the array it points into and an element
    offset. [Wild] is a pointer whose value the sources do not determine. *)

Inductive block : Type := BlkR | BlkMu | BlkM | BlkL.

Inductive dptr : Type :=
| Wild
| At (b : block) (off : Z).

#[global] Instance block_eq_dec : EqDecision block.
Proof. solve_decision. Defined.

#[global] Instance dptr_eq_dec : EqDecision dptr.
Proof. solve_decision. Defined.

(** ** [examples/fmm-dipole-reduced/src/peps/tree.hpp] *)

Module FMM.

(** [class Particle]: the addresses of the position and of the moment. *)
Record Particle : Type := mkParticle {
    p_r : dptr;
    p_mu : dptr
}.

(** [class Cell], field for field. *)
Record Cell : Type := mkCell {
    nleaf : Z;
    nchild : Z;
    level : Z;
    child : list Z;
    M : dptr;
    L : dptr;
    leaf : list Z;
    x : double;
    y : double;
    z : double;
    r : double;
    rmax : double;
    parent : Z
}.

(** Field updates ([c.f = v]). *)
Definition set_nleaf (v : Z) (c : Cell) : Cell :=
  mkCell v (nchild c) (level c) (child c) (M c) (L c) (leaf c) (x c) (y c) (z c) (r c) (rmax c) (parent c).
Definition set_nchild (v : Z) (c : Cell) : Cell :=
  mkCell (nleaf c) v (level c) (child c) (M c) (L c) (leaf c) (x c) (y c) (z c) (r c) (rmax c) (parent c).
Definition set_level (v : Z) (c : Cell) : Cell :=
  mkCell (nleaf c) (nchild c) v (child c) (M c) (L c) (leaf c) (x c) (y c) (z c) (r c) (rmax c) (parent c).
Definition set_child (v : list Z) (c : Cell) : Cell :=
  mkCell (nleaf c) (nchild c) (level c) v (M c) (L c) (leaf c) (x c) (y c) (z c) (r c) (rmax c) (parent c).
Definition set_M (v : dptr) (c : Cell) : Cell :=
  mkCell (nleaf c) (nchild c) (level c) (child c) v (L c) (leaf c) (x c) (y c) (z c) (r c) (rmax c) (parent c).
Definition set_L (v : dptr) (c : Cell) : Cell :=
  mkCell (nleaf c) (nchild c) (level c) (child c) (M c) v (leaf c) (x c) (y c) (z c) (r c) (rmax c) (parent c).
Definition set_leaf (v : list Z) (c : Cell) : Cell :=
  mkCell (nleaf c) (nchild c) (level c) (child c) (M c) (L c) v (x c) (y c) (z c) (r c) (rmax c) (parent c).
Definition set_x (v : double) (c : Cell) : Cell :=
  mkCell (nleaf c) (nchild c) (level c) (child c) (M c) (L c) (leaf c) v (y c) (z c) (r c) (rmax c) (parent c).
Definition set_y (v : double) (c : Cell) : Cell :=
  mkCell (nleaf c) (nchild c) (level c) (child c) (M c) (L c) (leaf c) (x c) v (z c) (r c) (rmax c) (parent c).
Definition set_z (v : double) (c : Cell) : Cell :=
  mkCell (nleaf c) (nchild c) (level c) (child c) (M c) (L c) (leaf c) (x c) (y c) v (r c) (rmax c) (parent c).
Definition set_r (v : double) (c : Cell) : Cell :=
  mkCell (nleaf c) (nchild c) (level c) (child c) (M c) (L c) (leaf c) (x c) (y c) (z c) v (rmax c) (parent c).
Definition set_rmax (v : double) (c : Cell) : Cell :=
  mkCell (nleaf c) (nchild c) (level c) (child c) (M c) (L c) (leaf c) (x c) (y c) (z c) (r c) v (parent c).
Definition set_parent (v : Z) (c : Cell) : Cell :=
  mkCell (nleaf c) (nchild c) (level c) (child c) (M c) (L c) (leaf c) (x c) (y c) (z c) (r c) (rmax c) v.

(** [Cell& operator=(const Cell& other)]: the twelve assignments of the
    body, top to bottom, applied to [this]. *)
Definition assign (this other : Cell) : Cell :=
  let this := set_nleaf (nleaf other) this in
  let this := set_nchild (nchild other) this in
  let this := set_level (level other) this in
  let this := set_child (child other) this in
  let this := set_M (M other) this in
  let this := set_L (L other) this in
  let this := set_leaf (leaf other) this in
  let this := set_x (x other) this in
  let this := set_y (y other) this in
  let this := set_z (z other) this in
  let this := set_r (r other) this in
  let this := set_parent (parent other) this in
  this.

End FMM.

(** ** The C++ library as the drivers use it *)

Module Std.

(** How a run of [main] ends, or how a library call returns. *)
Inductive exn : Type :=
  | invalid_argument              (* [std::stoul], [std::stod]: no conversion *)
  | out_of_range                  (* [std::stoul], [std::stod]: the value does not fit *)
  | length_error                  (* a [std::vector] longer than [max_size()] *)
  | bad_alloc                     (* [operator new] has no storage *)
  | bad_array_new_length          (* [new T[n]] with [n] past the limit *)
  | other (what : string).        (* thrown by a library the driver is linked against *)

Inductive undefined : Type :=
  | NullString (index : nat)      (* a [std::string] built from [argv[index] == NULL] *)
  | ArgvOverrun (index : nat)     (* a read past the terminator of [argv] *)
  | EmptySubscript.               (* [v[0]] of an empty [std::vector] *)

Inductive outcome (A : Type) : Type :=
  | Ret (a : A)
  | Throws (e : exn)              (* nothing catches: [std::terminate] *)
  | Undefined (u : undefined).
Arguments Ret {A} a.
Arguments Throws {A} e.
Arguments Undefined {A} u.

Definition bind {A B : Type} (m : outcome A) (k : A -> outcome B) : outcome B :=
  match m with
  | Ret a => k a
  | Throws e => Throws e
  | Undefined u => Undefined u
  end.

(** A call that returns a value or throws. *)
Definition of_call {A : Type} (r : A + exn) : outcome A :=
  match r with
  | inl a => Ret a
  | inr e => Throws e
  end.

(** [argv] holds the [argc] arguments and then a null pointer. *)
Definition arg (argv : list string) (i : nat) : outcome string :=
  match argv !! i with
  | Some s => Ret s
  | None => if (i =? length argv)%nat then Undefined (NullString i)
            else Undefined (ArgvOverrun i)
  end.

(** [isspace] and [isdigit] in the "C" locale. *)
Definition isspace (c : ascii) : bool :=
  let n := N_of_ascii c in ((n =? 32) || ((9 <=? n) && (n <=? 13)))%N.

Definition isdigit (c : ascii) : bool :=
  let n := N_of_ascii c in ((48 <=? n) && (n <=? 57))%N.

Definition digit_value (c : ascii) : Z := Z.of_N (N_of_ascii c) - 48.

Fixpoint skip_space (s : string) : string :=
  match s with
  | String c s' => if isspace c then skip_space s' else s
  | EmptyString => s
  end.

(** The longest prefix of decimal digits, accumulated from [acc]; [None]
    when there is no digit. *)
Fixpoint digits (s : string) (acc : Z) (seen : bool) : option Z :=
  match s with
  | String c s' =>
      if isdigit c then digits s' (10 * acc + digit_value c)%Z true
      else if seen then Some acc else None
  | EmptyString => if seen then Some acc else None
  end.

(** [std::stoul(str)] with the default base 10: [strtoul] on the text,
    [invalid_argument] when no conversion is made, [out_of_range] when
    the magnitude does not fit [unsigned long]; a leading minus negates
    in the unsigned type. *)
Definition stoul (str : string) : outcome Z :=
  let s := skip_space str in
  let '(neg, s) :=
    match s with
    | String "-" s' => (true, s')
    | String "+" s' => (false, s')
    | _ => (false, s)
    end in
  match digits s 0 false with
  | None => Throws invalid_argument
  | Some v =>
      if (Word.SIZE_MAX <? v)%Z then Throws out_of_range
      else Ret (if neg then Word.wrap64 (- v) else v)
  end.

(** [&v[0]]: [v[0]] has to be an element of the vector. *)
Definition first_element {A : Type} (v : list A) : outcome unit :=
  match v with
  | [] => Undefined EmptySubscript
  | _ :: _ => Ret tt
  end.

(** [std::to_string] of a [size_t]: the decimal numeral. *)
Definition to_string (v : Z) : string := pretty (Z.to_N v).

(** [operator new] as a run finds it: [alloc k bytes] tells whether the
    request number [k] of the run, for [bytes] bytes, is granted. *)
Definition allocator : Type := nat -> Z -> bool.

Definition PTRDIFF_MAX : Z := 2 ^ 63 - 1.

(** [std::vector<T> v(n, x)] with [sizeof(T) = size] (libstdc++):
    [length_error] when [n] is more than [max_size()], which is
    [PTRDIFF_MAX / sizeof(T)]; no storage is asked for when [n] is 0;
    otherwise [n * sizeof(T)] bytes are asked for, and [bad_alloc] leaves
    the constructor when they are refused. *)
Definition new_vector (alloc : allocator) (k : nat) (size n : Z) : outcome unit :=
  if (PTRDIFF_MAX / size <? n)%Z then Throws length_error
  else if (n =? 0)%Z then Ret tt
  else if alloc k (n * size)%Z then Ret tt
  else Throws bad_alloc.

(** [new double[n]] (GCC): [bad_array_new_length] when the array would be
    larger than [PTRDIFF_MAX] bytes; otherwise [operator new[]] is asked
    for [8 * n] bytes, also when [n] is 0. *)
Definition new_double_array (alloc : allocator) (k : nat) (n : Z) : outcome unit :=
  if (PTRDIFF_MAX / 8 <? n)%Z then Throws bad_array_new_length
  else if alloc k (n * 8)%Z then Ret tt
  else Throws bad_alloc.

(** [v.push_back(x)] on a vector of [n] elements of [size] bytes that has
    only grown by [push_back] (libstdc++): the capacity is 0, 1, 2, 4, ...,
    so the vector is full when [n] is 0 or a power of two. A full vector
    asks for twice its size (at most [max_size()] elements), and throws
    [length_error] when it holds [max_size()] elements already. *)
Definition push_back (alloc : allocator) (k : nat) (size n : Z) : outcome unit :=
  if (n =? PTRDIFF_MAX / size)%Z then Throws length_error
  else if (Z.land n (n - 1) =? 0)%Z then
    let capacity := Z.min (Z.max 1 (2 * n)) (PTRDIFF_MAX / size) in
    if alloc k (capacity * size)%Z then Ret tt else Throws bad_alloc
  else Ret tt.

(** [ostream << double] with the flags a stream starts with, which is
    [printf("%g")]: an infinity is written [inf] or [-inf], a NaN [nan] or
    [-nan]. A NaN of [spec_float] has no sign: [negative_nan] tells which
    of the two the platform writes for the NaN of an invalid operation.
    [finite] is the text of a finite value. *)
Definition put_double (finite : double -> string) (negative_nan : bool)
           (d : double) : string :=
  match d with
  | S754_nan => if negative_nan then "-nan" else "nan"
  | S754_infinity s => if s then "-inf" else "inf"
  | _ => finite d
  end.






End Std.

Notation "'do' x <- m ; k" := (Std.bind m (fun x => k))
  (at level 10, x name, m at level 100, k at level 200).

(** ** [utils.hpp] *)

Module Utils.

(** Modelled from the spec: [Nterms] is declared in [utils.hpp], which is
    not among the sources; the data model gives
    Nterms(p) = (p+1)(p+2)(p+3)/6. *)
Definition Nterms (p : Z) : Z := ((p + 1) * (p + 2) * (p + 3) / 6)%Z.

End Utils.

(** ** [example/fmm-dipole-reduced/src/apps/scaling_test.cpp] *)

Module ScalingTest.

Import Double Word FMM.
Local Open Scope Z_scope.

(** The two [new double[3*Nparticles]] arrays. [new double[n]] leaves the
    elements indeterminate: [None] is an element nothing has been stored
    to yet. *)
Record Heap : Type := mkHeap {
    h_mu : list (option double);
    h_r : list (option double)
}.

Definition new_double (n : Z) : list (option double) :=
  replicate (Z.to_nat n) None.

(** [a[i] = v]. A store outside the array is undefined in C++; here it
    leaves the array as it is. *)
Definition store (a : list (option double)) (i : Z) (v : double)
  : list (option double) :=
  <[Z.to_nat i := Some v]> a.

(** Reading [p[k]]: [None] when the address is outside every array,
    [Some None] when the element is indeterminate. *)
Definition load (h : Heap) (p : dptr) (k : Z) : option (option double) :=
  match p with
  | At BlkMu off => if 0 <=? off + k then h_mu h !! Z.to_nat (off + k) else None
  | At BlkR off => if 0 <=? off + k then h_r h !! Z.to_nat (off + k) else None
  | _ => None
  end.

(** Line 60: [Particle tmp(&r[3*i], &mu[3*i])]. *)
Definition pushed (i : Z) : Particle :=
  mkParticle (At BlkR (wrap64 (3 * i))) (At BlkMu (wrap64 (3 * i))).

(** What one iteration of the order loop has set up when the sweeps
    start (lines 77 to 87). *)
Record Expansions : Type := mkExpansions {
    e_cells : list Cell;
    e_M : list double;
    e_L : list double
}.

(** A call [Nterms(p)] in [size_t] arithmetic. *)
Definition Nterms (p : Z) : Z := wrap64 (Utils.Nterms p).

(** [Nterms(order) - Nterms(0)] and [Nterms(order - 1)]. *)
Definition M_stride (order : Z) : Z := wrap64 (Nterms order - Nterms 0).

Definition L_stride (order : Z) : Z := Nterms (wrap64 (order - 1)).

(** Lines 85 and 86 for the cell of index [i]. *)
Definition point_cell (order : Z) (i : nat) (c : Cell) : Cell :=
  let c := set_M (At BlkM (wrap64 (Z.of_nat i * M_stride order))) c in
  let c := set_L (At BlkL (wrap64 (Z.of_nat i * L_stride order))) c in
  c.

(** Lines 79 to 87: the two zero-filled arenas, and the loop that points
    every cell into them. *)
Definition allocate_expansions (order : Z) (cells : list Cell) : Expansions :=
  let size := Z.of_nat (length cells) in
  let Mv := replicate (Z.to_nat (wrap64 (size * M_stride order))) zero in
  let Lv := replicate (Z.to_nat (wrap64 (size * L_stride order))) zero in
  mkExpansions (imap (point_cell order) cells) Mv Lv.

Section Driver.

(** [operator new] as the run finds it. The requests of [main] are
    numbered in program order: 0 for [F_exact], 1 for [mu], 2 for [r],
    [3 + i] for the [push_back] of iteration [i], and three per order
    after those. *)
Variable alloc : Std.allocator.

(** The random engine with its distribution: [next g] is
    [distribution(generator)]. *)
Context {rng : Type}.
Variable next : rng -> double * rng.
Variable seed : rng.

(** [std::stod]. *)
Variable stod : string -> Std.outcome double.

(** Declared in [tree.hpp] and [calculate.hpp], defined elsewhere: the
    [Cell] constructor, [build_tree] and [evaluate_direct]. They read
    the particles through the pointers the particles hold, so they take
    the heap as well. *)
Variable new_Cell : double -> double -> double -> double -> Z -> Z -> Z -> Z -> Cell.
Variable build_tree : Heap -> list Particle -> Cell -> Z -> Z -> list Cell.
Variable evaluate_direct : Heap -> list Particle -> list double -> Z -> list double.

Record Gen : Type := mkGen {
    generator : rng;
    mux_total : double;
    muy_total : double;
    muz_total : double;
    heap : Heap;
    particles : list Particle
}.

(** Lines 46 to 61 of the loop body, once the six numbers are drawn. *)
Definition fill (i : Z) (mux muy muz x y z : double) (st : Gen) (g : rng) : Gen :=
  let mod_ := sqrt (add (add (mul mux mux) (mul muy muy)) (mul muz muz)) in
  let mux := div mux mod_ in
  let muy := div muy mod_ in
  let muz := div muz mod_ in
  let mu := h_mu (heap st) in
  let mu := store mu (wrap64 (wrap64 (3 * i) + 0)) mux in
  let mu := store mu (wrap64 (wrap64 (3 * i) + 1)) muy in
  let mu := store mu (wrap64 (wrap64 (3 * i) + 2)) muz in
  let tmp := pushed i in
  mkGen g
        (add (mux_total st) mux) (add (muy_total st) muy) (add (muz_total st) muz)
        (mkHeap mu (h_r (heap st)))
        (particles st ++ [tmp]).

(** Lines 39 to 44, then the rest of the body. *)
Definition body (i : Z) (st : Gen) : Gen :=
  let '(mux, g) := next (generator st) in
  let '(muy, g) := next g in
  let '(muz, g) := next g in
  let '(x, g) := next g in
  let '(y, g) := next g in
  let '(z, g) := next g in
  fill i mux muy muz x y z st g.

(** [sizeof(Particle)]: two pointers. *)
Definition sizeof_Particle : Z := 16.

(** [for (size_t i = 0; i < Nparticles; i++)], with [n] iterations left.
    The [push_back] of line 61 is the one statement of the body that can
    throw, and a throw ends the run: [body] is the iteration in which it
    returns. *)
Fixpoint generate (n : nat) (i : Z) (st : Gen) : Std.outcome Gen :=
  match n with
  | O => Std.Ret st
  | S n' =>
      do _ <- Std.push_back alloc (3 + Z.to_nat i) sizeof_Particle
                            (Z.of_nat (length (particles st)));
      generate n' (i + 1) (body i st)
  end.

(** Lines 35 to 62, once [mu] and [r] are allocated. *)
Definition setup (Nparticles : Z) : Std.outcome Gen :=
  let mu := new_double (wrap64 (3 * Nparticles)) in
  let r := new_double (wrap64 (3 * Nparticles)) in
  generate (Z.to_nat Nparticles) 0
           (mkGen seed zero zero zero (mkHeap mu r) []).

(** The number of the first of the three requests of an [order]. *)
Definition request (Nparticles order : Z) : nat :=
  (3 + Z.to_nat Nparticles + 3 * Z.to_nat (order - 2))%nat.

(** Lines 75 to 87 for one [order]: [F_approx], the root, the tree, the
    two arenas and the loop over the cells. *)
Definition prepare (st : Gen) (Nparticles ncrit order : Z)
  : Std.outcome Expansions :=
  do _ <- Std.new_vector alloc (request Nparticles order) 8
                         (wrap64 (3 * Nparticles));
  let root := new_Cell zero zero zero (of_Z 1) 0 order 0 ncrit in
  let cells := build_tree (heap st) (particles st) root ncrit order in
  let size := Z.of_nat (length cells) in
  do _ <- Std.new_vector alloc (request Nparticles order + 1) 8
                         (wrap64 (size * M_stride order));
  do _ <- Std.new_vector alloc (request Nparticles order + 2) 8
                         (wrap64 (size * L_stride order));
  Std.Ret (allocate_expansions order cells).

(** [for (size_t order = 2; order < maxorder; order++)]. *)
Definition orders (maxorder : Z) : list Z :=
  map (fun k => 2 + Z.of_nat k) (seq 0 (Z.to_nat (maxorder - 2))).

Fixpoint sweep (st : Gen) (Nparticles ncrit : Z) (os : list Z)
  : Std.outcome (list (Z * Expansions)) :=
  match os with
  | [] => Std.Ret []
  | order :: os =>
      do e <- prepare st Nparticles ncrit order;
      do es <- sweep st Nparticles ncrit os;
      Std.Ret ((order, e) :: es)
  end.

Record Run : Type := mkRun {
    run_N : Z;
    run_ncrit : Z;
    run_theta : double;
    run_maxorder : Z;
    run_gen : Gen;
    run_F_exact : list double;
    run_orders : list (Z * Expansions)
}.

(** [main] up to the point where the multipole sweeps of each order
    begin. The sweeps themselves ([evaluate_P2M] to [evaluate_L2P]),
    the console output and the error report are not embedded. *)
Definition main (argv : list string) : Std.outcome Run :=
  do a1 <- Std.arg argv 1; do Nparticles <- Std.stoul a1;
  do a2 <- Std.arg argv 2; do ncrit <- Std.stoul a2;
  do a3 <- Std.arg argv 3; do theta <- stod a3;
  do a4 <- Std.arg argv 4; do maxorder <- Std.stoul a4;
  do _ <- Std.new_vector alloc 0 8 (wrap64 (3 * Nparticles));
  let F_exact := replicate (Z.to_nat (wrap64 (3 * Nparticles))) zero in
  do _ <- Std.new_double_array alloc 1 (wrap64 (3 * Nparticles));
  do _ <- Std.new_double_array alloc 2 (wrap64 (3 * Nparticles));
  do st <- setup Nparticles;
  let F_exact := evaluate_direct (heap st) (particles st) F_exact Nparticles in
  do es <- sweep st Nparticles ncrit (orders maxorder);
  Std.Ret (mkRun Nparticles ncrit theta maxorder st F_exact es).

End Driver.

End ScalingTest.

(** ** [examples/dipolar/potential-only/lazy.cpp] *)

Module Lazy.

Import Double Word.
Local Open Scope Z_scope.

Definition minorder : Z := 2.
Definition calc_direct : Z := 1.

(** The literals [1e24] and [1e-9]: the doubles nearest to them. *)
Definition d_1e24 : double := of_Z (10 ^ 24).
Definition d_1e_9 : double := div (of_Z 1) (of_Z (10 ^ 9)).

Definition new_double (n : Z) : list (option double) :=
  replicate (Z.to_nat n) None.

Definition store (a : list (option double)) (i : Z) (v : double)
  : list (option double) :=
  <[Z.to_nat i := Some v]> a.

Definition component (c : nat) (v : double * double * double) : double :=
  match c with
  | O => fst (fst v)
  | S O => snd (fst v)
  | _ => snd v
  end.

(** The stores [a[3*i+0] = v0; a[3*i+1] = v1; a[3*i+2] = v2]. *)
Definition store3 (a : list (option double)) (i : Z) (v : double * double * double)
  : list (option double) :=
  store (store (store a (wrap64 (wrap64 (3 * i) + 0)) (component 0 v))
               (wrap64 (wrap64 (3 * i) + 1)) (component 1 v))
        (wrap64 (wrap64 (3 * i) + 2)) (component 2 v).

(** A kernel is handed [&F[0]] and writes its results through it: the
    vector keeps its length. *)
Definition through (F results : list double) : list double :=
  take (length F) results ++ drop (length results) F.

(** [F[i]] of a [std::vector<double>]. *)
Definition at_ (F : list double) (i : nat) : double := default zero (F !! i).

(** Calls into the tree library, in the order [main] makes them. *)
Inductive call : Type :=
  | call_build_tree (r mu : list (option double)) (N ncrit order : Z) (theta : double)
  | call_compute_field_exact (order : Z)
  | call_compute_field_fmm (order : Z)
  | call_compute_field_bh (order : Z).

(** An [std::ofstream] constructed on the name [f_name], and the lines
    sent to it until it is closed (a stream that cannot open its file
    drops them). *)
Record File : Type := mkFile {
    f_name : string;
    f_lines : list string
}.

(** A run of [main] that returned: the value returned, the output files
    and the calls into the tree library, in order. *)
Record Run : Type := mkRun {
    exit_code : Z;
    files : list File;
    calls : list call
}.

Section Driver.

(** [operator new] as the run finds it. The requests of [main] are
    numbered in program order: 0 for [F_exact], 1 for [F_approx], 2 for
    [r] and 3 for [mu]. *)
Variable alloc : Std.allocator.

Context {rng : Type}.
Variable next : rng -> double * rng.
Variable seed : rng.

(** [std::stod], [std::to_string(double)] and [ostream << double]. *)
Variable stod : string -> Std.outcome double.
Variable to_string_double : double -> string.
Variable put_double : double -> string.

(** The tree library the driver is linked against. [build_tree] returns
    the tree or throws; the three methods write the field through the
    pointer they are given. *)
Context {Tree : Type}.
Variable build_tree :
  list (option double) -> list (option double) -> Z -> Z -> Z -> double
  -> Tree + Std.exn.
Variable compute_field_exact : Tree -> list double -> list double.
Variable compute_field_fmm : Tree -> list double -> list double.
Variable compute_field_bh : Tree -> list double -> list double.

Record Gen : Type := mkGen {
    generator : rng;
    mux_total : double;
    muy_total : double;
    muz_total : double;
    r : list (option double);
    mu : list (option double)
}.

(** Lines 46 to 65. *)
Definition body (i : Z) (st : Gen) : Gen :=
  let '(mux, g) := next (generator st) in
  let '(muy, g) := next g in
  let '(muz, g) := next g in
  let mod_ := mul (sqrt (add (add (mul mux mux) (mul muy muy)) (mul muz muz)))
                  d_1e24 in
  let mux := div mux mod_ in
  let muy := div muy mod_ in
  let muz := div muz mod_ in
  let '(x, g) := next g in
  let r := store (r st) (wrap64 (wrap64 (3 * i) + 0)) (mul x d_1e_9) in
  let '(y, g) := next g in
  let r := store r (wrap64 (wrap64 (3 * i) + 1)) (mul y d_1e_9) in
  let '(z, g) := next g in
  let r := store r (wrap64 (wrap64 (3 * i) + 2)) (mul z d_1e_9) in
  let mu := store (mu st) (wrap64 (wrap64 (3 * i) + 0)) mux in
  let mu := store mu (wrap64 (wrap64 (3 * i) + 1)) muy in
  let mu := store mu (wrap64 (wrap64 (3 * i) + 2)) muz in
  mkGen g (add (mux_total st) mux) (add (muy_total st) muy)
        (add (muz_total st) muz) r mu.

Fixpoint generate (n : nat) (i : Z) (st : Gen) : Gen :=
  match n with
  | O => st
  | S n' => generate n' (i + 1) (body i st)
  end.

Definition setup (Nparticles : Z) : Gen :=
  let r := new_double (wrap64 (3 * Nparticles)) in
  let mu := new_double (wrap64 (3 * Nparticles)) in
  generate (Z.to_nat Nparticles) 0 (mkGen seed zero zero zero r mu).

(** The engine after [k] numbers have been drawn from [g], and the
    number drawn next. An iteration of the loop draws six. *)
Fixpoint state_after (g : rng) (k : nat) : rng :=
  match k with
  | O => g
  | S k' => state_after (snd (next g)) k'
  end.

Definition draw (g : rng) (k : nat) : double := fst (next (state_after g k)).

(** The moment and the position of the particle generated from the
    engine state [g], as (first, second, third) component. *)
Definition moment_of (g : rng) : double * double * double :=
  let mux := draw g 0 in
  let muy := draw g 1 in
  let muz := draw g 2 in
  let mod_ := mul (sqrt (add (add (mul mux mux) (mul muy muy)) (mul muz muz)))
                  d_1e24 in
  (div mux mod_, div muy mod_, div muz mod_).

Definition position_of (g : rng) : double * double * double :=
  (mul (draw g 3) d_1e_9, mul (draw g 4) d_1e_9, mul (draw g 5) d_1e_9).


(** Lines 93 to 97. *)
Definition filename (order Nparticles ncrit : Z) (theta : double) (type : Z)
  : string :=
  ("errors_lazy_p_" ++ Std.to_string order ++
   "_n_" ++ Std.to_string Nparticles ++
   "_ncrit_" ++ Std.to_string ncrit ++
   "_theta_" ++ to_string_double theta ++
   "_type_" ++ Std.to_string type ++ ".txt")%string.

(** Line 100. *)
Definition poterr (F_exact F_approx : list double) (i : nat) : double :=
  div (sub (at_ F_exact i) (at_ F_approx i)) (at_ F_exact i).

(** Lines 99 to 103: what goes to [fout]. *)
Definition report (Nparticles : Z) (F_exact F_approx : list double)
  : list string :=
  map (fun i => put_double (poterr F_exact F_approx i))
      (seq 0 (Z.to_nat Nparticles)).

Record Loop : Type := mkLoop {
    F_exact : list double;
    F_approx : list double;
    written : list File;
    called : list call
}.

(** The body of the order loop, lines 72 to 112. A [build_tree] that
    throws ends the run; the methods are handed [&F_exact[0]] and
    [&F_approx[0]]. *)
Definition iteration (st : Gen) (Nparticles ncrit : Z) (theta : double)
           (type : Z) (order : Z) (l : Loop) : Std.outcome Loop :=
  do tree <- Std.of_call (build_tree (r st) (mu st) Nparticles ncrit order theta);
  let cs := [call_build_tree (r st) (mu st) Nparticles ncrit order theta] in
  let Fa := replicate (length (F_approx l)) zero in
  do exact <-
    (if (order =? minorder) && negb (calc_direct =? 0)
     then do _ <- Std.first_element (F_exact l);
          Std.Ret (through (F_exact l) (compute_field_exact tree (F_exact l)),
                   cs ++ [call_compute_field_exact order])
     else Std.Ret (F_exact l, cs));
  let '(Fe, cs) := exact in
  do approx <-
    (if type =? 0
     then do _ <- Std.first_element Fa;
          Std.Ret (through Fa (compute_field_fmm tree Fa),
                   cs ++ [call_compute_field_fmm order])
     else if type =? 1
     then do _ <- Std.first_element Fa;
          Std.Ret (through Fa (compute_field_bh tree Fa),
                   cs ++ [call_compute_field_bh order])
     else Std.Ret (Fa, cs));
  let '(Fa, cs) := approx in
  let fs :=
    if negb (calc_direct =? 0)
    then [mkFile (filename order Nparticles ncrit theta type)
                 (report Nparticles Fe Fa)]
    else [] in
  Std.Ret (mkLoop Fe Fa (written l ++ fs) (called l ++ cs)).

(** [for (size_t order = minorder; order < maxorder; order++)]. *)
Definition orders (maxorder : Z) : list Z :=
  map (fun k => minorder + Z.of_nat k) (seq 0 (Z.to_nat (maxorder - minorder))).

Fixpoint loop (st : Gen) (Nparticles ncrit : Z) (theta : double) (type : Z)
         (os : list Z) (l : Loop) : Std.outcome Loop :=
  match os with
  | [] => Std.Ret l
  | order :: os =>
      do l <- iteration st Nparticles ncrit theta type order l;
      loop st Nparticles ncrit theta type os l
  end.

(** What the loop computes for an [order], in closed form: the tree,
    the reference field (computed once, at [minorder]), the
    approximate field, the calls and the file. Where [build_tree] throws
    there is no tree and no field; the closed forms then keep the zeros
    the vectors start with. *)
Definition tree_of (st : Gen) (Nparticles ncrit : Z) (theta : double)
           (order : Z) : Tree + Std.exn :=
  build_tree (r st) (mu st) Nparticles ncrit order theta.

Definition zeros (Nparticles : Z) : list double :=
  replicate (Z.to_nat Nparticles) zero.

Definition exact_on (tree : Tree) (Nparticles : Z) : list double :=
  through (zeros Nparticles) (compute_field_exact tree (zeros Nparticles)).

Definition approx_on (tree : Tree) (Nparticles type : Z) : list double :=
  if type =? 0 then through (zeros Nparticles)
                            (compute_field_fmm tree (zeros Nparticles))
  else if type =? 1 then through (zeros Nparticles)
                                 (compute_field_bh tree (zeros Nparticles))
  else zeros Nparticles.

Definition exact_field (st : Gen) (Nparticles ncrit : Z) (theta : double)
  : list double :=
  match tree_of st Nparticles ncrit theta minorder with
  | inl tree => exact_on tree Nparticles
  | inr _ => zeros Nparticles
  end.

Definition approx_field (st : Gen) (Nparticles ncrit : Z) (theta : double)
           (type order : Z) : list double :=
  match tree_of st Nparticles ncrit theta order with
  | inl tree => approx_on tree Nparticles type
  | inr _ => zeros Nparticles
  end.

Definition calls_of (st : Gen) (Nparticles ncrit : Z) (theta : double)
           (type order : Z) : list call :=
  [call_build_tree (r st) (mu st) Nparticles ncrit order theta]
  ++ (if order =? minorder then [call_compute_field_exact order] else [])
  ++ (if type =? 0 then [call_compute_field_fmm order]
      else if type =? 1 then [call_compute_field_bh order] else []).

Definition file_of (st : Gen) (Nparticles ncrit : Z) (theta : double)
           (type order : Z) : File :=
  mkFile (filename order Nparticles ncrit theta type)
         (report Nparticles (exact_field st Nparticles ncrit theta)
                 (approx_field st Nparticles ncrit theta type order)).

(** What lines 32, 33, 42 and 43 need in order to return: no more
    particles than a vector of doubles can hold, storage for the two
    vectors (none is asked for when they are empty), arrays of at most
    [PTRDIFF_MAX] bytes, and storage for the two arrays. *)
Definition granted (Nparticles : Z) : Prop :=
  Nparticles <= Std.PTRDIFF_MAX / 8
  /\ (Nparticles = 0
      \/ (alloc 0%nat (Nparticles * 8) = true
          /\ alloc 1%nat (Nparticles * 8) = true))
  /\ 3 * Nparticles <= Std.PTRDIFF_MAX / 8
  /\ alloc 2%nat (3 * Nparticles * 8) = true
  /\ alloc 3%nat (3 * Nparticles * 8) = true.

(** [main]. Console output and timings are left out. A run that ends by
    an exception has no [Run]: what it wrote before is not recorded. *)
Definition main (argv : list string) : Std.outcome Run :=
  do a1 <- Std.arg argv 1; do Nparticles <- Std.stoul a1;
  do a2 <- Std.arg argv 2; do ncrit <- Std.stoul a2;
  do a3 <- Std.arg argv 3; do theta <- stod a3;
  do a4 <- Std.arg argv 4; do maxorder <- Std.stoul a4;
  do a5 <- Std.arg argv 5; do type <- Std.stoul a5;
  do _ <- Std.new_vector alloc 0 8 Nparticles;
  let F_exact := replicate (Z.to_nat Nparticles) zero in
  do _ <- Std.new_vector alloc 1 8 Nparticles;
  let F_approx := replicate (Z.to_nat Nparticles) zero in
  do _ <- Std.new_double_array alloc 2 (wrap64 (3 * Nparticles));
  do _ <- Std.new_double_array alloc 3 (wrap64 (3 * Nparticles));
  let st := setup Nparticles in
  do l <- loop st Nparticles ncrit theta type (orders maxorder)
               (mkLoop F_exact F_approx [] []);
  Std.Ret (mkRun 0 (written l) (called l)).

End Driver.

End Lazy.

(** ** [example/bh-dipole/include/tree.hpp] *)

Module BH.

Import Double.
Local Open Scope Z_scope.

(** [class Particle]. *)
Record Particle : Type := mkParticle {
    p_x : double;
    p_y : double;
    p_z : double;
    mux : double;
    muy : double;
    muz : double
}.

(** [class Cell], field for field. The [unsigned int] fields are [Z]. *)
Record Cell : Type := mkCell {
    nleaf : Z;
    nchild : Z;
    level : Z;
    child : list Z;
    M : list double;
    leaf : list Z;
    x : double;
    y : double;
    z : double;
    r : double;
    parent : Z
}.

Definition set_nleaf (v : Z) (c : Cell) : Cell :=
  mkCell v (nchild c) (level c) (child c) (M c) (leaf c) (x c) (y c) (z c) (r c) (parent c).
Definition set_nchild (v : Z) (c : Cell) : Cell :=
  mkCell (nleaf c) v (level c) (child c) (M c) (leaf c) (x c) (y c) (z c) (r c) (parent c).
Definition set_child (v : list Z) (c : Cell) : Cell :=
  mkCell (nleaf c) (nchild c) (level c) v (M c) (leaf c) (x c) (y c) (z c) (r c) (parent c).
Definition set_leaf (v : list Z) (c : Cell) : Cell :=
  mkCell (nleaf c) (nchild c) (level c) (child c) (M c) v (x c) (y c) (z c) (r c) (parent c).
Definition set_level (v : Z) (c : Cell) : Cell :=
  mkCell (nleaf c) (nchild c) v (child c) (M c) (leaf c) (x c) (y c) (z c) (r c) (parent c).
Definition set_M (v : list double) (c : Cell) : Cell :=
  mkCell (nleaf c) (nchild c) (level c) (child c) v (leaf c) (x c) (y c) (z c) (r c) (parent c).
Definition set_x (v : double) (c : Cell) : Cell :=
  mkCell (nleaf c) (nchild c) (level c) (child c) (M c) (leaf c) v (y c) (z c) (r c) (parent c).
Definition set_y (v : double) (c : Cell) : Cell :=
  mkCell (nleaf c) (nchild c) (level c) (child c) (M c) (leaf c) (x c) v (z c) (r c) (parent c).
Definition set_z (v : double) (c : Cell) : Cell :=
  mkCell (nleaf c) (nchild c) (level c) (child c) (M c) (leaf c) (x c) (y c) v (r c) (parent c).
Definition set_r (v : double) (c : Cell) : Cell :=
  mkCell (nleaf c) (nchild c) (level c) (child c) (M c) (leaf c) (x c) (y c) (z c) v (parent c).
Definition set_parent (v : Z) (c : Cell) : Cell :=
  mkCell (nleaf c) (nchild c) (level c) (child c) (M c) (leaf c) (x c) (y c) (z c) (r c) v.

(** [Cell& operator=(const Cell& other)]: the eleven assignments of the
    body, top to bottom, applied to [this]. *)
Definition assign (this other : Cell) : Cell :=
  let this := set_nleaf (nleaf other) this in
  let this := set_nchild (nchild other) this in
  let this := set_level (level other) this in
  let this := set_child (child other) this in
  let this := set_M (M other) this in
  let this := set_leaf (leaf other) this in
  let this := set_x (x other) this in
  let this := set_y (y other) this in
  let this := set_z (z other) this in
  let this := set_r (r other) this in
  let this := set_parent (parent other) this in
  this.

(** Modelled from the spec: the constructor
    [Cell(x, y, z, r, parent, order, level, ncrit)] is declared here and
    defined in [tree.cpp], which is not among the sources. A new cell
    holds no particle and no child, has eight child slots, and an
    M-array of Nterms(order) - Nterms(0) zeros. *)
Definition new_Cell (x y z r : double) (parent order level ncrit : Z) : Cell :=
  mkCell 0 0 level (replicate 8 0)
         (replicate (Z.to_nat (Utils.Nterms order - Utils.Nterms 0)) zero)
         [] x y z r parent.

End BH.

(** ** The tree library behind [build_tree(r, mu, N, ncrit, order, theta)] *)

Module Facade.

Import Double.
Local Open Scope Z_scope.

(** Modelled from the spec: the two errors of a build; no source file
    shows how [build_tree] reports them. *)
Inductive BuildError : Type := InvalidParameters | InvalidGeometry.

(** Modelled from the spec: a build returns a tree, or fails with an error
    and no tree; [Unfinished] is a build that does not return. *)
Inductive Build (A : Type) : Type :=
  | Built (t : A)
  | Failed (e : BuildError)
  | Unfinished.
Arguments Built {A} t.
Arguments Failed {A} e.
Arguments Unfinished {A}.

(** Modelled from the spec: the [Tree] that [build_tree] returns, declared
    in a header that is not among the sources: the cell vector, the
    particles and the build parameters. *)
Record Tree : Type := mkTree {
    cells : list BH.Cell;
    particles : list BH.Particle;
    ncrit : Z;
    order : Z;
    theta : double
}.

(** [a[i]] of a flat array of doubles. *)
Definition at_ (a : list double) (i : nat) : double := default zero (a !! i).

(** Modelled from the spec: particle [i] of flat length-3N arrays in
    x, y, z order (the body of [build_tree] is not among the sources). *)
Definition particle_at (positions moments : list double) (i : nat) : BH.Particle :=
  BH.mkParticle (at_ positions (3 * i)) (at_ positions (3 * i + 1))
                (at_ positions (3 * i + 2))
                (at_ moments (3 * i)) (at_ moments (3 * i + 1))
                (at_ moments (3 * i + 2)).

Section Build.

(** The root ball. The entry has no argument for it; its centre and
    half-width are the implementation's choice. *)
Variables root_x root_y root_z root_r : double.

(** The octree builder [build_tree(particles, root, ncrit, order)] that
    [tree.hpp] declares and [tree.cpp], which is not among the sources,
    defines: the cell vector, or nothing when it does not return. *)
Variable octree : list BH.Particle -> BH.Cell -> Z -> Z -> option (list BH.Cell).

(** Modelled from the spec: the test behind InvalidGeometry, "a particle
    position lies outside the root", along each axis. *)
Definition inside_root (q : BH.Particle) : bool :=
  leb (SFabs (sub (BH.p_x q) root_x)) root_r
  && leb (SFabs (sub (BH.p_y q) root_y)) root_r
  && leb (SFabs (sub (BH.p_z q) root_z)) root_r.

(** Modelled from the spec: the parameters that make a build fail with
    InvalidParameters: ncrit < 1, order < 2, theta <= 0, N = 0. *)
Definition invalid_parameters (N ncrit order : Z) (theta : double) : bool :=
  (ncrit <? 1) || (order <? 2) || leb theta zero || (N =? 0).

(** Modelled from the spec: [build_tree(positions, moments, N, ncrit,
    order, theta)], which [lazy.cpp] calls and no source file defines.
    The parameters are checked first, then that every particle lies in
    the root ball, and only then is the octree built. *)
Definition build_tree (positions moments : list double)
           (N ncrit order : Z) (theta : double) : Build Tree :=
  if invalid_parameters N ncrit order theta then Failed InvalidParameters
  else
    let ps := map (particle_at positions moments) (seq 0 (Z.to_nat N)) in
    if negb (forallb inside_root ps) then Failed InvalidGeometry
    else
      let root := BH.new_Cell root_x root_y root_z root_r 0 order 0 ncrit in
      match octree ps root ncrit order with
      | None => Unfinished
      | Some cells => Built (mkTree cells ps ncrit order theta)
      end.

End Build.

End Facade.

(** ** Reading the call trace of [lazy.cpp] *)

Module LazyTrace.

Import Lazy.

(** Which library entry a recorded call went to. *)
Definition is_build_tree (c : call) : bool :=
  match c with call_build_tree _ _ _ _ _ _ => true | _ => false end.

Definition is_compute_field_exact (c : call) : bool :=
  match c with call_compute_field_exact _ => true | _ => false end.

Definition is_compute_field_approx (c : call) : bool :=
  match c with
  | call_compute_field_fmm _ | call_compute_field_bh _ => true
  | _ => false
  end.

End LazyTrace.

(** ** The moments [scaling_test.cpp] stores *)

Module ScalingMoments.

Import Double.

Section Moments.

Context {rng : Type}.
Variable next : rng -> double * rng.

(** Lines 39 to 58 for the particle generated from the engine state [g]:
    the three numbers drawn first, divided by their norm. *)
Definition moment_of (g : rng) : double * double * double :=
  let mux := Lazy.draw next g 0 in
  let muy := Lazy.draw next g 1 in
  let muz := Lazy.draw next g 2 in
  let mod_ := sqrt (add (add (mul mux mux) (mul muy muy)) (mul muz muz)) in
  (div mux mod_, div muy mod_, div muz mod_).

End Moments.

End ScalingMoments.

(** * Properties *)

(** ** [Cell::operator=] *)

(** C10: the copy-assignment operator of the FMM [Cell] copies nleaf,
  nchild, level, child, M, L, leaf, x, y, z, r and parent from the source
  cell and leaves the target's [rmax] as it was before the assignment. *)
Theorem assign_copies_all_but_rmax (c other : FMM.Cell) :
  let c' := FMM.assign c other in
  FMM.nleaf c' = FMM.nleaf other /\ FMM.nchild c' = FMM.nchild other /\
  FMM.level c' = FMM.level other /\ FMM.child c' = FMM.child other /\
  FMM.M c' = FMM.M other /\ FMM.L c' = FMM.L other /\
  FMM.leaf c' = FMM.leaf other /\
  FMM.x c' = FMM.x other /\ FMM.y c' = FMM.y other /\ FMM.z c' = FMM.z other /\
  FMM.r c' = FMM.r other /\ FMM.parent c' = FMM.parent other /\
  FMM.rmax c' = FMM.rmax c.
Proof. cbv zeta. unfold FMM.assign. cbn. repeat split. Qed.

(** The kept [rmax] is in general not the one of the source. *)
Example assign_rmax_not_copied :
  let c := FMM.mkCell 0 0 0 [] Wild Wild [] Double.zero Double.zero Double.zero
                      (Double.of_Z 1) (Double.of_Z 1) 0 in
  let other := FMM.set_rmax (Double.of_Z 2) c in
  FMM.rmax (FMM.assign c other) = Double.of_Z 1
  /\ FMM.rmax (FMM.assign c other) <> FMM.rmax other.
Proof. cbn. split; [reflexivity | discriminate]. Qed.

(** ** The coefficient arenas of [scaling_test.cpp] *)

Section ArenaFacts.

Import Word ScalingTest.
Local Open Scope Z_scope.

Lemma wrap64_small (v : Z) : 0 <= v <= SIZE_MAX -> wrap64 v = v.
Proof.
  unfold wrap64, SIZE_MAX, size_t_width. intros H.
  apply Z.mod_small. lia.
Qed.

Lemma Nterms_lower (p : Z) : 0 <= p -> p + 1 <= Utils.Nterms p.
Proof.
  intros Hp. unfold Utils.Nterms.
  apply Z.div_le_lower_bound; [lia | nia].
Qed.

Lemma Nterms_0 : Utils.Nterms 0 = 1.
Proof. reflexivity. Qed.

Lemma M_stride_exact (order : Z) :
  0 <= Utils.Nterms order - Utils.Nterms 0 <= SIZE_MAX ->
  M_stride order = Utils.Nterms order - Utils.Nterms 0.
Proof.
  intros H. unfold M_stride, Nterms, wrap64.
  rewrite <- Zminus_mod. apply Z.mod_small.
  unfold SIZE_MAX, size_t_width in *. lia.
Qed.

Lemma L_stride_exact (order : Z) :
  1 <= order -> Utils.Nterms (order - 1) <= SIZE_MAX ->
  L_stride order = Utils.Nterms (order - 1).
Proof.
  intros Ho H. unfold L_stride, Nterms.
  pose proof (Nterms_lower (order - 1) ltac:(lia)) as Hl.
  rewrite (wrap64_small (order - 1)) by lia.
  apply wrap64_small. lia.
Qed.

Lemma allocate_cell (order : Z) (cells : list FMM.Cell) (k : nat) (c : FMM.Cell) :
  e_cells (allocate_expansions order cells) !! k = Some c ->
  exists c0, cells !! k = Some c0 /\ c = point_cell order k c0.
Proof.
  unfold allocate_expansions. cbn. rewrite list_lookup_imap.
  destruct (cells !! k) as [c0|]; cbn; [|discriminate].
  intros [= <-]. eauto.
Qed.

End ArenaFacts.

(** C1: with expansion order p, the M-slice of a cell has length
  Nterms(p) - Nterms(0) and its L-slice has length Nterms(p - 1), where
  Nterms(p) = (p+1)(p+2)(p+3)/6; the M-pointer of cell k is the start of
  [k * M_len, (k+1) * M_len) in the M-arena, which holds exactly one such
  slice per cell, and likewise for L. The arenas have to fit [size_t]. *)
Theorem arena_layout (order : Z) (cells : list FMM.Cell) (k : nat) (c : FMM.Cell) :
  let e := ScalingTest.allocate_expansions order cells in
  let size := Z.of_nat (length cells) in
  let M_len := (Utils.Nterms order - Utils.Nterms 0)%Z in
  let L_len := Utils.Nterms (order - 1) in
  (1 <= order)%Z ->
  (size * M_len <= Word.SIZE_MAX)%Z ->
  (size * L_len <= Word.SIZE_MAX)%Z ->
  ScalingTest.e_cells e !! k = Some c ->
  Utils.Nterms order = ((order + 1) * (order + 2) * (order + 3) / 6)%Z
  /\ FMM.M c = At BlkM (Z.of_nat k * M_len)
  /\ FMM.L c = At BlkL (Z.of_nat k * L_len)
  /\ Z.of_nat (length (ScalingTest.e_M e)) = (size * M_len)%Z
  /\ Z.of_nat (length (ScalingTest.e_L e)) = (size * L_len)%Z
  /\ (0 <= Z.of_nat k * M_len /\ (Z.of_nat k + 1) * M_len <= size * M_len)%Z
  /\ (0 <= Z.of_nat k * L_len /\ (Z.of_nat k + 1) * L_len <= size * L_len)%Z.
Proof.
  intros e size M_len L_len Ho HM HL Hk.
  destruct (allocate_cell _ _ _ _ Hk) as (c0 & Hc0 & ->).
  apply lookup_lt_Some in Hc0.
  assert (Hkz : (Z.of_nat k + 1 <= size)%Z) by (unfold size; lia).
  pose proof (Nterms_lower order ltac:(lia)) as HlM.
  pose proof (Nterms_lower (order - 1) ltac:(lia)) as HlL.
  pose proof Nterms_0 as H0.
  assert (HMl : (0 <= M_len <= Word.SIZE_MAX)%Z).
  { assert (0 <= M_len)%Z by (unfold M_len; lia). split; [lia | nia]. }
  assert (HLl : (0 <= L_len <= Word.SIZE_MAX)%Z).
  { assert (0 <= L_len)%Z by (unfold L_len; lia). split; [lia | nia]. }
  assert (EM : ScalingTest.M_stride order = M_len) by (apply M_stride_exact; exact HMl).
  assert (EL : ScalingTest.L_stride order = L_len) by (apply L_stride_exact; lia).
  split; [reflexivity|].
  unfold e, ScalingTest.allocate_expansions, ScalingTest.point_cell. cbn.
  rewrite EM, EL. fold size.
  rewrite !length_replicate.
  rewrite !wrap64_small by nia.
  repeat split; try nia.
Qed.

Lemma arena_layout_witness :
  let c0 := FMM.mkCell 0 0 0 [] Wild Wild [] Double.zero Double.zero Double.zero
                       (Double.of_Z 1) (Double.of_Z 1) 0 in
  let c := ScalingTest.point_cell 2 1 c0 in
  ScalingTest.e_cells (ScalingTest.allocate_expansions 2 [c0; c0]) !! 1%nat = Some c
  /\ FMM.M c = At BlkM 9 /\ FMM.L c = At BlkL 4.
Proof.
  intros c0 c.
  assert (Hk : ScalingTest.e_cells (ScalingTest.allocate_expansions 2 [c0; c0]) !! 1%nat
               = Some c) by reflexivity.
  split; [exact Hk|].
  destruct (arena_layout 2 [c0; c0] 1 c) as (_ & HM & HL & _);
    [lia | vm_compute; discriminate | vm_compute; discriminate | exact Hk |].
  split; [exact HM | exact HL].
Defined.

(** ** The particle generation of [scaling_test.cpp] *)

Section Outcomes.

Import Std.

Lemma bind_Ret {A B : Type} (m : outcome A) (k : A -> outcome B) (b : B) :
  bind m k = Ret b -> exists a, m = Ret a /\ k a = Ret b.
Proof. destruct m; cbn; intros H; [eauto | discriminate | discriminate]. Qed.

Lemma digits_nonneg (s : string) : forall (acc : Z) (seen : bool) (v : Z),
  digits s acc seen = Some v -> (0 <= acc)%Z -> (0 <= v)%Z.
Proof.
  induction s as [|c s IH]; cbn; intros acc seen v H Hacc.
  - destruct seen; [congruence | discriminate].
  - destruct (isdigit c) eqn:Hd.
    + apply (IH _ _ _ H). unfold digit_value.
      unfold isdigit in Hd. apply andb_true_iff in Hd as [Hd _].
      apply N.leb_le in Hd. lia.
    + destruct seen; [congruence | discriminate].
Qed.

(** [stoul] returns a [size_t]. *)
Lemma stoul_range (s : string) (v : Z) :
  stoul s = Ret v -> (0 <= v <= Word.SIZE_MAX)%Z.
Proof.
  unfold stoul.
  destruct (match skip_space s with
            | String "-" s' => (true, s')
            | String "+" s' => (false, s')
            | _ => (false, skip_space s)
            end) as [neg rest].
  destruct (digits rest 0 false) as [d|] eqn:Hd; [|discriminate].
  apply digits_nonneg in Hd; [|lia].
  destruct (Word.SIZE_MAX <? d)%Z eqn:Hmax; [discriminate|].
  apply Z.ltb_ge in Hmax.
  intros [= <-]. destruct neg; [|lia].
  unfold Word.wrap64, Word.SIZE_MAX, Word.size_t_width.
  pose proof (Z.mod_pos_bound (- d) (2 ^ 64) ltac:(lia)). lia.
Qed.

Lemma bind_Undefined {A B : Type} (m : outcome A) (k : A -> outcome B)
      (u : undefined) :
  bind m k = Undefined u ->
  m = Undefined u \/ exists a, m = Ret a /\ k a = Undefined u.
Proof. destruct m; cbn; intros H; [eauto | discriminate | left; congruence]. Qed.

Lemma of_call_defined {A : Type} (r : A + exn) (u : undefined) :
  of_call r <> Undefined u.
Proof. destruct r; discriminate. Qed.

Lemma of_call_Ret {A : Type} (r : A + exn) (a : A) :
  of_call r = Ret a <-> r = inl a.
Proof.
  destruct r; cbn; split; intros H; try discriminate; congruence.
Qed.

Lemma first_element_Ret {A : Type} (v : list A) (a : unit) :
  first_element v = Ret a <-> v <> [].
Proof.
  destruct v, a; cbn; split; intros H; try congruence; discriminate.
Qed.

Lemma first_element_nonempty {A : Type} (v : list A) :
  length v <> O -> first_element v = Ret tt.
Proof. destruct v; cbn; [contradiction | reflexivity]. Qed.

Lemma first_element_Undefined {A : Type} (v : list A) (u : undefined) :
  first_element v = Undefined u -> u = EmptySubscript /\ v = [].
Proof. destruct v; cbn; intros H; [split; congruence | discriminate]. Qed.

(** The allocations return or throw. *)
Lemma new_vector_defined (alloc : allocator) (k : nat) (size n : Z) (u : undefined) :
  new_vector alloc k size n <> Undefined u.
Proof.
  unfold new_vector.
  destruct (PTRDIFF_MAX / size <? n)%Z; [discriminate|].
  destruct (n =? 0)%Z; [discriminate|].
  destruct (alloc k (n * size)%Z); discriminate.
Qed.

Lemma new_double_array_defined (alloc : allocator) (k : nat) (n : Z) (u : undefined) :
  new_double_array alloc k n <> Undefined u.
Proof.
  unfold new_double_array.
  destruct (PTRDIFF_MAX / 8 <? n)%Z; [discriminate|].
  destruct (alloc k (n * 8)%Z); discriminate.
Qed.

Lemma push_back_defined (alloc : allocator) (k : nat) (size n : Z) (u : undefined) :
  push_back alloc k size n <> Undefined u.
Proof.
  unfold push_back.
  destruct (n =? PTRDIFF_MAX / size)%Z; [discriminate|].
  destruct (Z.land n (n - 1) =? 0)%Z; [|discriminate].
  match goal with |- context [alloc k ?b] => destruct (alloc k b) end; discriminate.
Qed.

(** When they return. *)
Lemma new_vector_Ret (alloc : allocator) (k : nat) (size n : Z) (a : unit) :
  new_vector alloc k size n = Ret a
  <-> (n <= PTRDIFF_MAX / size)%Z /\ (n = 0%Z \/ alloc k (n * size)%Z = true).
Proof.
  unfold new_vector. destruct a.
  destruct (Z.ltb_spec (PTRDIFF_MAX / size) n) as [Hlt|Hle].
  - split; [discriminate | intros [H _]; lia].
  - destruct (Z.eqb_spec n 0) as [->|Hn].
    + split; [intros _; split; [exact Hle | left; reflexivity] | reflexivity].
    + destruct (alloc k (n * size)%Z).
      * split; [intros _; split; [exact Hle | right; reflexivity] | reflexivity].
      * split; [discriminate | intros [_ [H|H]]; [contradiction | discriminate]].
Qed.

Lemma new_double_array_Ret (alloc : allocator) (k : nat) (n : Z) (a : unit) :
  new_double_array alloc k n = Ret a
  <-> (n <= PTRDIFF_MAX / 8)%Z /\ alloc k (n * 8)%Z = true.
Proof.
  unfold new_double_array. destruct a.
  destruct (Z.ltb_spec (PTRDIFF_MAX / 8) n) as [Hlt|Hle].
  - split; [discriminate | intros [H _]; lia].
  - destruct (alloc k (n * 8)%Z).
    + split; [intros _; split; [exact Hle | reflexivity] | reflexivity].
    + split; [discriminate | intros [_ H]; discriminate].
Qed.

End Outcomes.

Section ScalingTestFacts.

Import Double Word FMM ScalingTest.
Local Open Scope Z_scope.

Variable alloc : Std.allocator.
Context {rng : Type}.
Variable next : rng -> double * rng.
Variable seed : rng.
Variable stod : string -> Std.outcome double.
Variable new_Cell : double -> double -> double -> double -> Z -> Z -> Z -> Z -> Cell.
Variable build_tree : Heap -> list Particle -> Cell -> Z -> Z -> list Cell.
Variable evaluate_direct : Heap -> list Particle -> list double -> Z -> list double.

Lemma body_effect (i : Z) (st : Gen) :
  h_r (heap (body next i st)) = h_r (heap st)
  /\ particles (body next i st) = particles st ++ [pushed i].
Proof.
  unfold body.
  destruct (next (generator st)) as [mux g1].
  destruct (next g1) as [muy g2]. destruct (next g2) as [muz g3].
  destruct (next g3) as [x g4]. destruct (next g4) as [y g5].
  destruct (next g5) as [z g6].
  split; reflexivity.
Qed.

Lemma generate_effect (n : nat) : forall (i : Z) (st st' : Gen),
  generate alloc next n i st = Std.Ret st' ->
  h_r (heap st') = h_r (heap st)
  /\ particles st'
     = particles st ++ map (fun k => pushed (i + Z.of_nat k)) (seq 0 n).
Proof.
  induction n as [|n IH]; intros i st st' Hgen; cbn [generate] in Hgen.
  - injection Hgen as <-. cbn. rewrite app_nil_r. split; reflexivity.
  - apply bind_Ret in Hgen as (_ & _ & Hgen).
    destruct (IH (i + 1) (body next i st) st' Hgen) as [Hr Hp].
    destruct (body_effect i st) as [Hr' Hp'].
    split; [congruence|].
    rewrite Hp, Hp', <- app_assoc. f_equal. cbn [seq map app].
    rewrite Z.add_0_r. f_equal.
    rewrite <- seq_shift, map_map.
    apply map_ext. intros k. f_equal. lia.
Qed.

Lemma setup_effect (N : Z) (st : @Gen rng) :
  0 <= N -> 3 * N <= SIZE_MAX ->
  setup alloc next seed N = Std.Ret st ->
  h_r (heap st) = replicate (Z.to_nat (3 * N)) None
  /\ particles st = map (fun k => pushed (Z.of_nat k)) (seq 0 (Z.to_nat N)).
Proof.
  intros H0 Hmax Hset. unfold setup in Hset.
  destruct (generate_effect _ _ _ _ Hset) as [Hr Hp].
  rewrite Hr, Hp. cbn. unfold new_double.
  rewrite wrap64_small by lia. split; reflexivity.
Qed.

Lemma sweep_effect (st : @Gen rng) (N ncrit : Z) (os : list Z) :
  forall es : list (Z * Expansions),
  sweep alloc new_Cell build_tree st N ncrit os = Std.Ret es ->
  map fst es = os
  /\ forall (order : Z) (e : Expansions), In (order, e) es ->
       e = allocate_expansions order
             (build_tree (heap st) (particles st)
                         (new_Cell zero zero zero (of_Z 1) 0 order 0 ncrit)
                         ncrit order).
Proof.
  induction os as [|o os IH]; intros es Hsw; cbn [sweep] in Hsw.
  - injection Hsw as <-. split; [reflexivity | intros order e []].
  - apply bind_Ret in Hsw as (e0 & Hprep & Hsw).
    apply bind_Ret in Hsw as (es0 & Hrest & Hsw).
    injection Hsw as <-.
    destruct (IH es0 Hrest) as [Hfst Hin].
    unfold prepare in Hprep.
    apply bind_Ret in Hprep as (_ & _ & Hprep).
    apply bind_Ret in Hprep as (_ & _ & Hprep).
    apply bind_Ret in Hprep as (_ & _ & Hprep).
    injection Hprep as <-.
    split; [cbn; rewrite Hfst; reflexivity|].
    intros order e [[= <- <-] | Hi]; [reflexivity | exact (Hin order e Hi)].
Qed.

(** A run of [main] that returns: its arguments were there and
    converted, every request for storage was granted, and the run is what
    the generation and the order loop left. *)
Lemma main_inv (argv : list string) (run : Run) :
  main alloc next seed stod new_Cell build_tree evaluate_direct argv = Std.Ret run ->
  exists (prog a1 a2 a3 a4 : string) (rest : list string)
         (N ncrit maxorder : Z) (theta : double) (st : Gen)
         (es : list (Z * Expansions)),
    argv = prog :: a1 :: a2 :: a3 :: a4 :: rest
    /\ Std.stoul a1 = Std.Ret N /\ Std.stoul a2 = Std.Ret ncrit
    /\ stod a3 = Std.Ret theta /\ Std.stoul a4 = Std.Ret maxorder
    /\ setup alloc next seed N = Std.Ret st
    /\ sweep alloc new_Cell build_tree st N ncrit (orders maxorder) = Std.Ret es
    /\ run = mkRun N ncrit theta maxorder st
               (evaluate_direct (heap st) (particles st)
                  (replicate (Z.to_nat (wrap64 (3 * N))) zero) N)
               es.
Proof.
  unfold main. intros Hmain.
  apply bind_Ret in Hmain as (a1 & H1 & Hmain).
  apply bind_Ret in Hmain as (N & HN & Hmain).
  apply bind_Ret in Hmain as (a2 & H2 & Hmain).
  apply bind_Ret in Hmain as (ncrit & Hncrit & Hmain).
  apply bind_Ret in Hmain as (a3 & H3 & Hmain).
  apply bind_Ret in Hmain as (theta & Htheta & Hmain).
  apply bind_Ret in Hmain as (a4 & H4 & Hmain).
  apply bind_Ret in Hmain as (maxorder & Hmax & Hmain).
  apply bind_Ret in Hmain as (_ & _ & Hmain).
  apply bind_Ret in Hmain as (_ & _ & Hmain).
  apply bind_Ret in Hmain as (_ & _ & Hmain).
  apply bind_Ret in Hmain as (st & Hst & Hmain).
  apply bind_Ret in Hmain as (es & Hes & Hmain).
  destruct argv as [|prog [|b1 [|b2 [|b3 [|b4 rest]]]]];
    cbn in H1, H2, H3, H4; try discriminate.
  injection H1 as ->. injection H2 as ->. injection H3 as ->. injection H4 as ->.
  injection Hmain as <-.
  exists prog, a1, a2, a3, a4, rest, N, ncrit, maxorder, theta, st, es.
  repeat split; assumption.
Qed.

(** C8: in [scaling_test.cpp] nothing is ever stored to the positions
    array [r]: when [main] hands the particles to [evaluate_direct] and to
    [build_tree], [r] is as [new] left it, every particle points into it,
    and each of the three coordinates a particle points to is an
    indeterminate double. The [x], [y], [z] drawn in the loop are not
    used. The size of [r] has to fit [size_t]. *)
Theorem positions_never_written (argv : list string) (run : Run) :
  main alloc next seed stod new_Cell build_tree evaluate_direct argv = Std.Ret run ->
  3 * run_N run <= SIZE_MAX ->
  let st := run_gen run in
  let N := run_N run in
  h_r (heap st) = replicate (Z.to_nat (3 * N)) None
  /\ Z.of_nat (length (particles st)) = N
  /\ (forall (i : nat) (p : Particle) (c : Z),
        particles st !! i = Some p -> 0 <= c < 3 ->
        p_r p = At BlkR (3 * Z.of_nat i)
        /\ load (heap st) (p_r p) c = Some None)
  /\ run_F_exact run
     = evaluate_direct (heap st) (particles st)
                       (replicate (Z.to_nat (3 * N)) zero) N
  /\ (forall (order : Z) (e : Expansions),
        In (order, e) (run_orders run) ->
        e = allocate_expansions order
              (build_tree (heap st) (particles st)
                          (new_Cell zero zero zero (of_Z 1) 0 order 0 (run_ncrit run))
                          (run_ncrit run) order))
  /\ (forall (i : Z) (mux muy muz x y z x' y' z' : double) (s : Gen) (g : rng),
        fill i mux muy muz x y z s g = fill i mux muy muz x' y' z' s g).
Proof.
  intros Hmain.
  destruct (main_inv _ _ Hmain)
    as (prog & a1 & a2 & a3 & a4 & rest & N & ncrit & maxorder & theta & st & es
        & _ & HN & _ & _ & _ & Hst & Hes & ->).
  cbn [run_N run_gen run_F_exact run_orders run_ncrit].
  intros Hmax.
  apply stoul_range in HN as [HN0 _].
  destruct (setup_effect N st HN0 Hmax Hst) as [Hr Hp].
  rewrite (wrap64_small (3 * N)) by lia.
  split; [exact Hr|].
  split; [rewrite Hp, length_map, length_seq; lia|].
  split.
  { intros i p c Hi Hc. rewrite Hp in Hi.
    rewrite list_lookup_fmap in Hi.
    destruct (seq 0 (Z.to_nat N) !! i) as [k|] eqn:Hk; [|discriminate].
    apply lookup_seq in Hk as [-> Hlt]. cbn in Hi. injection Hi as <-.
    cbn [pushed p_r]. rewrite wrap64_small by lia.
    split; [reflexivity|].
    unfold load. rewrite Hr.
    destruct (0 <=? 3 * Z.of_nat i + c) eqn:Hge; [|apply Z.leb_gt in Hge; lia].
    apply lookup_replicate_2. lia. }
  split; [reflexivity|].
  split.
  { exact (proj2 (sweep_effect st N ncrit _ es Hes)). }
  intros. reflexivity.
Qed.

End ScalingTestFacts.

Lemma positions_never_written_witness :
  let alloc := fun (_ : nat) (_ : Z) => true in
  let next := fun g : Z => (Double.of_Z (g mod 5 - 2), (g + 1)%Z) in
  let stod := fun _ : string => Std.Ret (Double.div (Double.of_Z 1) (Double.of_Z 2)) in
  let new_Cell := fun (x y z r : double) (parent order level ncrit : Z) =>
                    FMM.mkCell 0 0 level [] Wild Wild [] x y z r r parent in
  let build_tree := fun (_ : ScalingTest.Heap) (_ : list FMM.Particle)
                        (root : FMM.Cell) (_ _ : Z) => [root] in
  let evaluate_direct := fun (_ : ScalingTest.Heap) (_ : list FMM.Particle)
                             (F : list double) (_ : Z) => F in
  exists run : ScalingTest.Run,
    ScalingTest.main alloc next 0%Z stod new_Cell build_tree evaluate_direct
                     ["scaling_test"; "2"; "2"; "0.5"; "4"]%string = Std.Ret run
    /\ (3 * ScalingTest.run_N run <= Word.SIZE_MAX)%Z
    /\ ScalingTest.h_r (ScalingTest.heap (ScalingTest.run_gen run))
       = replicate (Z.to_nat (3 * ScalingTest.run_N run)) None.
Proof.
  intros alloc next stod new_Cell build_tree evaluate_direct.
  eexists. split; [vm_compute; reflexivity|].
  match goal with |- (3 * ScalingTest.run_N ?run <= _)%Z /\ _ =>
    assert (Hmain : ScalingTest.main alloc next 0%Z stod new_Cell build_tree
                      evaluate_direct
                      ["scaling_test"; "2"; "2"; "0.5"; "4"]%string = Std.Ret run)
      by (vm_compute; reflexivity);
    assert (Hmax : (3 * ScalingTest.run_N run <= Word.SIZE_MAX)%Z)
      by (vm_compute; discriminate)
  end.
  split; [exact Hmax|].
  exact (proj1 (positions_never_written alloc next 0%Z stod new_Cell build_tree
                  evaluate_direct _ _ Hmain Hmax)).
Defined.

(** ** The driver [lazy.cpp] *)

Section LazyFacts.

Import Double Word Lazy.
Local Open Scope Z_scope.

Variable alloc : Std.allocator.
Context {rng : Type}.
Variable next : rng -> double * rng.
Variable seed : rng.
Variable stod : string -> Std.outcome double.
Variable to_string_double : double -> string.
Variable put_double : double -> string.
Context {Tree : Type}.
Variable build_tree :
  list (option double) -> list (option double) -> Z -> Z -> Z -> double
  -> Tree + Std.exn.
Variable compute_field_exact : Tree -> list double -> list double.
Variable compute_field_fmm : Tree -> list double -> list double.
Variable compute_field_bh : Tree -> list double -> list double.

(** *** The generation loop *)

Lemma state_after_add (k1 : nat) : forall (g : rng) (k2 : nat),
  state_after next g (k1 + k2) = state_after next (state_after next g k1) k2.
Proof. induction k1 as [|k1 IH]; intros g k2; cbn; [reflexivity | apply IH]. Qed.

Lemma body_effect_lazy (i : Z) (st : Gen) :
  r (body next i st) = store3 (r st) i (position_of next (generator st))
  /\ mu (body next i st) = store3 (mu st) i (moment_of next (generator st))
  /\ generator (body next i st) = state_after next (generator st) 6.
Proof.
  unfold body, store3, position_of, moment_of, draw. cbn [state_after component].
  destruct (next (generator st)) as [mux g1]. cbn [fst snd].
  destruct (next g1) as [muy g2]. cbn [fst snd].
  destruct (next g2) as [muz g3]. cbn [fst snd].
  destruct (next g3) as [x g4]. cbn [fst snd].
  destruct (next g4) as [y g5]. cbn [fst snd].
  destruct (next g5) as [z g6]. cbn [fst snd].
  repeat split.
Qed.

Lemma store3_length a i v : length (store3 a i v) = length a.
Proof. unfold store3, store. rewrite !length_insert. reflexivity. Qed.

Lemma store3_index (i c : Z) :
  0 <= i -> 0 <= c < 3 -> 3 * i + 2 <= SIZE_MAX ->
  Z.to_nat (wrap64 (wrap64 (3 * i) + c)) = (3 * Z.to_nat i + Z.to_nat c)%nat.
Proof.
  intros Hi Hc Hmax. rewrite (wrap64_small (3 * i)) by lia.
  rewrite wrap64_small by lia. lia.
Qed.

Lemma store3_below a (i : Z) v (j : nat) :
  0 <= i -> 3 * i + 2 <= SIZE_MAX -> (j < 3 * Z.to_nat i)%nat ->
  store3 a i v !! j = a !! j.
Proof.
  intros Hi Hmax Hj. unfold store3, store.
  rewrite !store3_index by lia.
  rewrite !list_lookup_insert_ne by (cbn; lia). reflexivity.
Qed.

Lemma store3_at a (i : Z) v (c : nat) :
  0 <= i -> 3 * i + 2 <= SIZE_MAX -> (c < 3)%nat ->
  (3 * Z.to_nat i + c < length a)%nat ->
  store3 a i v !! (3 * Z.to_nat i + c)%nat = Some (Some (component c v)).
Proof.
  intros Hi Hmax Hc Hlen. unfold store3, store.
  rewrite !store3_index by lia. cbn [Z.to_nat Pos.to_nat Pos.iter_op Nat.add].
  destruct c as [|[|[|c]]]; [| | |lia].
  - rewrite !list_lookup_insert_ne by lia.
    apply list_lookup_insert_eq. lia.
  - rewrite list_lookup_insert_ne by lia.
    apply list_lookup_insert_eq. rewrite length_insert. lia.
  - apply list_lookup_insert_eq. rewrite !length_insert. lia.
Qed.

(** After [n] iterations from index [i]: the arrays keep their length,
    the elements below [3i] are untouched, and particle [i + k] sits in
    the three elements from [3(i+k)] on. *)
Lemma generate_arrays (n : nat) : forall (i : Z) (st : Gen),
  0 <= i -> 3 * (i + Z.of_nat n) <= SIZE_MAX ->
  let st' := generate next n i st in
  length (r st') = length (r st) /\ length (mu st') = length (mu st)
  /\ (forall j : nat, (j < 3 * Z.to_nat i)%nat ->
        r st' !! j = r st !! j /\ mu st' !! j = mu st !! j)
  /\ (forall k c : nat, (k < n)%nat -> (c < 3)%nat ->
        (3 * (Z.to_nat i + k) + c < length (r st))%nat ->
        r st' !! (3 * (Z.to_nat i + k) + c)%nat
        = Some (Some (component c
              (position_of next (state_after next (generator st) (6 * k))))))
  /\ (forall k c : nat, (k < n)%nat -> (c < 3)%nat ->
        (3 * (Z.to_nat i + k) + c < length (mu st))%nat ->
        mu st' !! (3 * (Z.to_nat i + k) + c)%nat
        = Some (Some (component c
              (moment_of next (state_after next (generator st) (6 * k)))))).
Proof.
  induction n as [|n IH]; intros i st Hi Hmax; cbn [generate].
  - cbn zeta. repeat split; intros; lia.
  - destruct (body_effect_lazy i st) as (Hr & Hmu & Hg).
    destruct (IH (i + 1) (body next i st) ltac:(lia) ltac:(lia))
      as (Lr & Lmu & Hbelow & Hatr & Hatmu).
    cbn zeta. rewrite Lr, Lmu, Hr, Hmu, !store3_length.
    split; [reflexivity|]. split; [reflexivity|]. split; [|split].
    + intros j Hj.
      destruct (Hbelow j ltac:(lia)) as [-> ->].
      rewrite Hr, Hmu, !store3_below by lia. split; reflexivity.
    + intros k c Hk Hc Hlen. destruct k as [|k].
      * rewrite Nat.add_0_r.
        destruct (Hbelow (3 * Z.to_nat i + c)%nat ltac:(lia)) as [-> _].
        rewrite Hr. cbn [Nat.mul state_after]. apply store3_at; lia.
      * replace (3 * (Z.to_nat i + S k) + c)%nat
          with (3 * (Z.to_nat (i + 1) + k) + c)%nat by lia.
        rewrite Hatr; [| lia | lia | rewrite Hr, store3_length; lia].
        rewrite Hg. replace (6 * S k)%nat with (6 + 6 * k)%nat by lia.
        rewrite state_after_add. reflexivity.
    + intros k c Hk Hc Hlen. destruct k as [|k].
      * rewrite Nat.add_0_r.
        destruct (Hbelow (3 * Z.to_nat i + c)%nat ltac:(lia)) as [_ ->].
        rewrite Hmu. cbn [Nat.mul state_after]. apply store3_at; lia.
      * replace (3 * (Z.to_nat i + S k) + c)%nat
          with (3 * (Z.to_nat (i + 1) + k) + c)%nat by lia.
        rewrite Hatmu; [| lia | lia | rewrite Hmu, store3_length; lia].
        rewrite Hg. replace (6 * S k)%nat with (6 + 6 * k)%nat by lia.
        rewrite state_after_add. reflexivity.
Qed.

(** *** The order loop *)

Lemma through_length (F results : list double) :
  length (through F results) = length F.
Proof.
  unfold through. rewrite length_app, length_take, length_drop. lia.
Qed.

Lemma orders_unfold (maxorder : Z) :
  minorder < maxorder ->
  orders maxorder
  = minorder :: map (fun k => minorder + 1 + Z.of_nat k)
                    (seq 0 (Z.to_nat (maxorder - minorder - 1))).
Proof.
  intros H. unfold orders.
  replace (Z.to_nat (maxorder - minorder))
    with (S (Z.to_nat (maxorder - minorder - 1))) by lia.
  cbn [seq map]. f_equal; try lia.
  rewrite <- seq_shift, map_map. apply map_ext. intros k. lia.
Qed.

Lemma orders_range (maxorder o : Z) :
  In o (orders maxorder) <-> minorder <= o < maxorder.
Proof.
  unfold orders. rewrite in_map_iff. split.
  - intros (k & <- & Hk). apply in_seq in Hk. lia.
  - intros H. exists (Z.to_nat (o - minorder)). split; [lia|].
    apply in_seq. lia.
Qed.

Section Loop.

Variables (N ncrit : Z) (theta : double) (type : Z).

Local Abbreviation st := (setup next seed N).
Local Abbreviation step :=
  (iteration to_string_double put_double build_tree
             compute_field_exact compute_field_fmm compute_field_bh
             st N ncrit theta type).
Local Abbreviation run_loop :=
  (loop to_string_double put_double build_tree
        compute_field_exact compute_field_fmm compute_field_bh
        st N ncrit theta type).
Local Abbreviation built := (tree_of build_tree st N ncrit theta).
Local Abbreviation approx :=
  (approx_field build_tree compute_field_fmm compute_field_bh
                st N ncrit theta type).

Lemma approx_on_length (t : Tree) :
  length (approx_on compute_field_fmm compute_field_bh t N type) = Z.to_nat N.
Proof.
  unfold approx_on, zeros.
  destruct (type =? 0); [|destruct (type =? 1)];
    rewrite ?through_length, length_replicate; reflexivity.
Qed.

Lemma approx_field_length (order : Z) : length (approx order) = Z.to_nat N.
Proof.
  unfold approx_field. destruct (built order) as [t|e].
  - apply approx_on_length.
  - unfold zeros. apply length_replicate.
Qed.

Lemma exact_on_length (t : Tree) :
  length (exact_on compute_field_exact t N) = Z.to_nat N.
Proof.
  unfold exact_on, zeros. rewrite through_length, length_replicate. reflexivity.
Qed.

Lemma iteration_approx (order : Z) (l : Loop) (Fe : list double) (t : Tree) :
  0 < N ->
  built order = inl t ->
  length (F_exact l) = Z.to_nat N ->
  length (F_approx l) = Z.to_nat N ->
  Fe = (if order =? minorder
        then through (F_exact l) (compute_field_exact t (F_exact l))
        else F_exact l) ->
  step order l
  = Std.Ret (mkLoop Fe (approx order)
      (written l ++ [mkFile (filename to_string_double order N ncrit theta type)
                            (report put_double N Fe (approx order))])
      (called l ++ calls_of st N ncrit theta type order)).
Proof.
  intros HN Ht Hle Hlen ->.
  unfold iteration, approx_field, approx_on, calls_of, zeros, tree_of in *.
  rewrite !Ht. cbn [Std.of_call Std.bind].
  rewrite Hlen. unfold calc_direct. cbn [Z.eqb negb andb].
  rewrite andb_true_r.
  rewrite (first_element_nonempty (F_exact l)) by lia.
  rewrite (first_element_nonempty (replicate (Z.to_nat N) zero))
    by (rewrite length_replicate; lia).
  destruct (order =? minorder); destruct (type =? 0); destruct (type =? 1);
    cbn; rewrite <- ?app_assoc; reflexivity.
Qed.

(** The iteration of [minorder] returns only if there is a particle. *)
Lemma iteration_positive (l l' : Loop) :
  step minorder l = Std.Ret l' -> F_exact l <> [].
Proof.
  unfold iteration. intros H.
  apply bind_Ret in H as (t & _ & H).
  apply bind_Ret in H as (p & H & _).
  unfold calc_direct in H. cbn [Z.eqb negb andb] in H.
  apply bind_Ret in H as (u & H & _).
  apply first_element_Ret in H. exact H.
Qed.

(** An iteration returns only if [build_tree] did. *)
Lemma iteration_builds (order : Z) (l l' : Loop) :
  step order l = Std.Ret l' -> exists t : Tree, built order = inl t.
Proof.
  unfold iteration, tree_of. intros H.
  apply bind_Ret in H as (t & Ht & _). apply of_call_Ret in Ht. eauto.
Qed.

Lemma loop_builds (os : list Z) : forall (l l' : Loop),
  run_loop os l = Std.Ret l' ->
  forall o : Z, In o os -> exists t : Tree, built o = inl t.
Proof.
  induction os as [|o os IH]; intros l l' H o' Hin; [destruct Hin|].
  cbn [loop] in H. apply bind_Ret in H as (l1 & H1 & H).
  destruct Hin as [<- | Hin].
  - exact (iteration_builds _ _ _ H1).
  - exact (IH _ _ H o' Hin).
Qed.

(** Past [minorder] the reference field stays as it is. *)
Lemma later_orders (os : list Z) : forall (l : Loop),
  0 < N ->
  Forall (fun o => o <> minorder) os ->
  (forall o : Z, In o os -> exists t : Tree, built o = inl t) ->
  length (F_exact l) = Z.to_nat N ->
  length (F_approx l) = Z.to_nat N ->
  exists l' : Loop,
    run_loop os l = Std.Ret l'
    /\ written l'
       = written l
         ++ map (fun o =>
                   mkFile (filename to_string_double o N ncrit theta type)
                          (report put_double N (F_exact l) (approx o))) os
    /\ called l' = called l ++ concat (map (calls_of st N ncrit theta type) os).
Proof.
  induction os as [|o os IH]; intros l HN Hne Hb Hle Hlen; cbn [loop map concat].
  - exists l. rewrite !app_nil_r. repeat split.
  - inversion Hne as [|? ? Ho Hos]; subst.
    destruct (Hb o ltac:(left; reflexivity)) as [t Ht].
    rewrite (iteration_approx o l (F_exact l) t HN Ht Hle Hlen).
    2:{ destruct (Z.eqb_spec o minorder); [contradiction | reflexivity]. }
    cbn [Std.bind].
    match goal with |- context [loop _ _ _ _ _ _ _ _ _ _ _ os ?l0] =>
      destruct (IH l0 HN Hos) as (l' & Hl' & Hw & Hc) end.
    { intros o' Ho'. apply Hb. right. exact Ho'. }
    { cbn [F_exact]. exact Hle. }
    { cbn [F_approx]. apply approx_field_length. }
    exists l'. split; [exact Hl'|].
    rewrite Hw, Hc. cbn [written called F_exact].
    rewrite <- !app_assoc. split; reflexivity.
Qed.

Lemma exact_field_length :
  length (exact_field build_tree compute_field_exact st N ncrit theta)
  = Z.to_nat N.
Proof.
  unfold exact_field. destruct (built minorder) as [t|e].
  - apply exact_on_length.
  - unfold zeros. apply length_replicate.
Qed.

Lemma order_loop (maxorder : Z) :
  maxorder <= minorder \/ 0 < N ->
  (forall o : Z, minorder <= o < maxorder -> exists t : Tree, built o = inl t) ->
  exists l : Loop,
    run_loop (orders maxorder) (mkLoop (zeros N) (zeros N) [] []) = Std.Ret l
    /\ written l
       = map (file_of to_string_double put_double build_tree compute_field_exact
                      compute_field_fmm compute_field_bh st N ncrit theta type)
             (orders maxorder)
    /\ called l = concat (map (calls_of st N ncrit theta type) (orders maxorder)).
Proof.
  intros Hpos Hb.
  destruct (Z.lt_ge_cases minorder maxorder) as [Hlt|Hge].
  - assert (HN : 0 < N) by lia.
    assert (Hb' : forall o, In o (orders maxorder) -> exists t, built o = inl t).
    { intros o Ho. apply Hb, orders_range. exact Ho. }
    rewrite (orders_unfold maxorder Hlt) in *. cbn [loop map concat].
    destruct (Hb' minorder ltac:(left; reflexivity)) as [t2 Ht2].
    rewrite (iteration_approx minorder _
               (exact_field build_tree compute_field_exact st N ncrit theta)
               t2 HN Ht2).
    2:{ cbn [F_exact]. unfold zeros. apply length_replicate. }
    2:{ cbn [F_approx]. unfold zeros. apply length_replicate. }
    2:{ unfold exact_field. rewrite Ht2. reflexivity. }
    cbn [Std.bind].
    match goal with |- context [loop _ _ _ _ _ _ _ _ _ _ _ ?os ?l0] =>
      destruct (later_orders os l0 HN) as (l' & Hl' & Hw & Hc) end.
    { apply Forall_forall. intros o Ho.
      apply list_elem_of_In, in_map_iff in Ho as (k & <- & _). lia. }
    { intros o Ho. apply Hb'. right. exact Ho. }
    { cbn [F_exact]. apply exact_field_length. }
    { cbn [F_approx]. apply approx_field_length. }
    exists l'. split; [exact Hl'|].
    rewrite Hw, Hc. cbn [written called F_exact app].
    split; reflexivity.
  - unfold orders. replace (Z.to_nat (maxorder - minorder)) with O by lia.
    cbn. eexists. repeat split.
Qed.

(** The loop runs only if there is a particle. *)
Lemma loop_positive (maxorder : Z) (l' : Loop) :
  run_loop (orders maxorder) (mkLoop (zeros N) (zeros N) [] []) = Std.Ret l' ->
  maxorder <= minorder \/ 0 < N.
Proof.
  intros H. destruct (Z.lt_ge_cases minorder maxorder) as [Hlt|Hge]; [|left; lia].
  right. rewrite (orders_unfold maxorder Hlt) in H. cbn [loop] in H.
  apply bind_Ret in H as (l1 & H & _).
  apply iteration_positive in H. cbn [F_exact] in H. unfold zeros in H.
  destruct (Z.to_nat N) eqn:E; [contradiction | lia].
Qed.

End Loop.

Lemma granted_allocations (N : Z) :
  0 <= N ->
  (granted alloc N
   <-> Std.new_vector alloc 0 8 N = Std.Ret tt
       /\ Std.new_vector alloc 1 8 N = Std.Ret tt
       /\ Std.new_double_array alloc 2 (wrap64 (3 * N)) = Std.Ret tt
       /\ Std.new_double_array alloc 3 (wrap64 (3 * N)) = Std.Ret tt).
Proof.
  intros H0. unfold granted.
  rewrite !new_vector_Ret, !new_double_array_Ret.
  assert (Hp : Std.PTRDIFF_MAX / 8 = 2 ^ 60 - 1) by reflexivity.
  split.
  - intros (Hle & Hv & Ha & H2 & H3).
    rewrite (wrap64_small (3 * N))
      by (unfold SIZE_MAX, size_t_width; rewrite Hp in Hle; lia).
    repeat split; try assumption; destruct Hv as [->|[? ?]]; auto.
  - intros ((Hle & Hv0) & (_ & Hv1) & (Ha & H2) & (_ & H3)).
    rewrite (wrap64_small (3 * N)) in *
      by (unfold SIZE_MAX, size_t_width; rewrite Hp in Hle; lia).
    split; [exact Hle|]. split; [|repeat split; assumption].
    destruct Hv0 as [->|Hv0]; [left; reflexivity|].
    destruct Hv1 as [->|Hv1]; [left; reflexivity|].
    right. split; assumption.
Qed.

(** [main] on arguments that convert, when storage is granted and every
    [build_tree] returns. *)
Lemma main_runs (prog a1 a2 a3 a4 a5 : string) (rest : list string)
      (N ncrit maxorder type : Z) (theta : double) :
  Std.stoul a1 = Std.Ret N -> Std.stoul a2 = Std.Ret ncrit ->
  stod a3 = Std.Ret theta -> Std.stoul a4 = Std.Ret maxorder ->
  Std.stoul a5 = Std.Ret type ->
  granted alloc N ->
  maxorder <= minorder \/ 0 < N ->
  let st := setup next seed N in
  (forall o : Z, minorder <= o < maxorder ->
     exists t : Tree, build_tree (r st) (mu st) N ncrit o theta = inl t) ->
  main alloc next seed stod to_string_double put_double build_tree
       compute_field_exact compute_field_fmm compute_field_bh
       (prog :: a1 :: a2 :: a3 :: a4 :: a5 :: rest)
  = Std.Ret (mkRun 0
      (map (file_of to_string_double put_double build_tree compute_field_exact
                    compute_field_fmm compute_field_bh st N ncrit theta type)
           (orders maxorder))
      (concat (map (calls_of st N ncrit theta type) (orders maxorder)))).
Proof.
  intros H1 H2 H3 H4 H5 Hg Hpos st Hb. unfold main.
  cbn [Std.arg lookup list_lookup Std.bind].
  rewrite H1. cbn [Std.bind]. rewrite H2. cbn [Std.bind].
  rewrite H3. cbn [Std.bind]. rewrite H4. cbn [Std.bind].
  rewrite H5. cbn [Std.bind].
  apply granted_allocations in Hg as (G0 & G1 & G2 & G3);
    [|apply stoul_range in H1; lia].
  rewrite G0. cbn [Std.bind]. rewrite G1. cbn [Std.bind].
  rewrite G2. cbn [Std.bind]. rewrite G3. cbn [Std.bind].
  destruct (order_loop N ncrit theta type maxorder Hpos Hb) as (l & Hl & Hw & Hc).
  unfold zeros in Hl. subst st. cbn zeta. rewrite Hl. cbn [Std.bind].
  rewrite Hw, Hc. reflexivity.
Qed.

(** A run of [main] that returns. *)
Lemma lazy_main_inv (argv : list string) (run : Run) :
  main alloc next seed stod to_string_double put_double build_tree
       compute_field_exact compute_field_fmm compute_field_bh argv = Std.Ret run ->
  exists (prog a1 a2 a3 a4 a5 : string) (rest : list string)
         (N ncrit maxorder type : Z) (theta : double),
    argv = prog :: a1 :: a2 :: a3 :: a4 :: a5 :: rest
    /\ Std.stoul a1 = Std.Ret N /\ Std.stoul a2 = Std.Ret ncrit
    /\ stod a3 = Std.Ret theta /\ Std.stoul a4 = Std.Ret maxorder
    /\ Std.stoul a5 = Std.Ret type
    /\ granted alloc N
    /\ (maxorder <= minorder \/ 0 < N)
    /\ (forall o : Z, minorder <= o < maxorder ->
          exists t : Tree,
            build_tree (r (setup next seed N)) (mu (setup next seed N))
                       N ncrit o theta = inl t)
    /\ run = mkRun 0
         (map (file_of to_string_double put_double build_tree compute_field_exact
                       compute_field_fmm compute_field_bh
                       (setup next seed N) N ncrit theta type)
              (orders maxorder))
         (concat (map (calls_of (setup next seed N) N ncrit theta type)
                      (orders maxorder))).
Proof.
  intros Hmain. pose proof Hmain as Hrun. unfold main in Hmain.
  apply bind_Ret in Hmain as (a1 & H1 & Hmain).
  apply bind_Ret in Hmain as (N & HN & Hmain).
  apply bind_Ret in Hmain as (a2 & H2 & Hmain).
  apply bind_Ret in Hmain as (ncrit & Hncrit & Hmain).
  apply bind_Ret in Hmain as (a3 & H3 & Hmain).
  apply bind_Ret in Hmain as (theta & Htheta & Hmain).
  apply bind_Ret in Hmain as (a4 & H4 & Hmain).
  apply bind_Ret in Hmain as (maxorder & Hmax & Hmain).
  apply bind_Ret in Hmain as (a5 & H5 & Hmain).
  apply bind_Ret in Hmain as (type & Htype & Hmain).
  apply bind_Ret in Hmain as ([] & G0 & Hmain).
  apply bind_Ret in Hmain as ([] & G1 & Hmain).
  apply bind_Ret in Hmain as ([] & G2 & Hmain).
  apply bind_Ret in Hmain as ([] & G3 & Hmain).
  apply bind_Ret in Hmain as (l & Hl & _).
  destruct argv as [|prog [|b1 [|b2 [|b3 [|b4 [|b5 rest]]]]]];
    cbn in H1, H2, H3, H4, H5; try discriminate.
  injection H1 as ->. injection H2 as ->. injection H3 as ->.
  injection H4 as ->. injection H5 as ->.
  assert (Hg : granted alloc N).
  { apply granted_allocations; [apply stoul_range in HN; lia|].
    repeat split; assumption. }
  assert (Hb : forall o : Z, minorder <= o < maxorder ->
            exists t : Tree,
              build_tree (r (setup next seed N)) (mu (setup next seed N))
                         N ncrit o theta = inl t).
  { intros o Ho. apply (loop_builds N ncrit theta type _ _ _ Hl).
    apply orders_range. exact Ho. }
  assert (Hpos : maxorder <= minorder \/ 0 < N)
    by exact (loop_positive N ncrit theta type maxorder l Hl).
  exists prog, a1, a2, a3, a4, a5, rest, N, ncrit, maxorder, type, theta.
  split; [reflexivity|]. repeat (split; [assumption|]).
  rewrite (main_runs prog a1 a2 a3 a4 a5 rest N ncrit maxorder type theta
             HN Hncrit Htheta Hmax Htype Hg Hpos Hb) in Hrun.
  injection Hrun as <-. reflexivity.
Qed.

(** [main] on given arguments that convert, when it returns. *)
Lemma parsed_run (prog a1 a2 a3 a4 a5 : string) (rest : list string)
      (N ncrit maxorder type : Z) (theta : double) (run : Run) :
  Std.stoul a1 = Std.Ret N -> Std.stoul a2 = Std.Ret ncrit ->
  stod a3 = Std.Ret theta -> Std.stoul a4 = Std.Ret maxorder ->
  Std.stoul a5 = Std.Ret type ->
  main alloc next seed stod to_string_double put_double build_tree
       compute_field_exact compute_field_fmm compute_field_bh
       (prog :: a1 :: a2 :: a3 :: a4 :: a5 :: rest) = Std.Ret run ->
  let st := setup next seed N in
  granted alloc N
  /\ (maxorder <= minorder \/ 0 < N)
  /\ (forall o : Z, minorder <= o < maxorder ->
        exists t : Tree, build_tree (r st) (mu st) N ncrit o theta = inl t)
  /\ run = mkRun 0
       (map (file_of to_string_double put_double build_tree compute_field_exact
                     compute_field_fmm compute_field_bh st N ncrit theta type)
            (orders maxorder))
       (concat (map (calls_of st N ncrit theta type) (orders maxorder))).
Proof.
  intros H1 H2 H3 H4 H5 Hmain.
  destruct (lazy_main_inv _ _ Hmain)
    as (prog' & b1 & b2 & b3 & b4 & b5 & rest' & N' & ncrit' & maxorder' & type'
        & theta' & Hargv & E1 & E2 & E3 & E4 & E5 & Hg & Hpos & Hb & Hrun).
  injection Hargv as <- <- <- <- <- <- <-.
  assert (N' = N) as -> by congruence.
  assert (ncrit' = ncrit) as -> by congruence.
  assert (theta' = theta) as -> by congruence.
  assert (maxorder' = maxorder) as -> by congruence.
  assert (type' = type) as -> by congruence.
  cbn zeta. split; [exact Hg|]. split; [exact Hpos|]. split; [exact Hb | exact Hrun].
Qed.

(** The file of an order, on the trees that were built. *)
Lemma file_of_built (st : @Gen rng) (N ncrit : Z) (theta : double)
      (type order : Z) (first tree : Tree) :
  build_tree (r st) (mu st) N ncrit minorder theta = inl first ->
  build_tree (r st) (mu st) N ncrit order theta = inl tree ->
  file_of to_string_double put_double build_tree compute_field_exact
          compute_field_fmm compute_field_bh st N ncrit theta type order
  = mkFile (filename to_string_double order N ncrit theta type)
           (report put_double N (exact_on compute_field_exact first N)
                   (approx_on compute_field_fmm compute_field_bh tree N type)).
Proof.
  intros Hfirst Htree. unfold file_of, exact_field, approx_field, tree_of.
  rewrite Hfirst, Htree. reflexivity.
Qed.

(** *** What the driver hands to the tree library *)

Lemma setup_arrays (N : Z) :
  0 <= N -> 3 * N <= SIZE_MAX ->
  let st := setup next seed N in
  length (r st) = Z.to_nat (3 * N) /\ length (mu st) = Z.to_nat (3 * N)
  /\ (forall i c : nat, (i < Z.to_nat N)%nat -> (c < 3)%nat ->
        r st !! (3 * i + c)%nat
        = Some (Some (component c
              (position_of next (state_after next seed (6 * i)))))
        /\ mu st !! (3 * i + c)%nat
           = Some (Some (component c
                 (moment_of next (state_after next seed (6 * i)))))).
Proof.
  intros H0 Hmax. unfold setup.
  match goal with |- context [generate next ?n ?i ?st0] =>
    destruct (generate_arrays n i st0 ltac:(lia) ltac:(lia))
      as (Lr & Lmu & _ & Hr & Hmu) end.
  cbn zeta in *. cbn [r mu generator] in *.
  unfold new_double in *. rewrite length_replicate in *.
  rewrite (wrap64_small (3 * N)) in * by lia.
  split; [exact Lr|]. split; [exact Lmu|].
  intros i c Hi Hc. split.
  - apply (Hr i c Hi Hc). cbn. lia.
  - apply (Hmu i c Hi Hc). cbn. lia.
Qed.

Lemma in_calls_of (st : @Gen rng) (N ncrit : Z) (theta : double) (type : Z)
      (os : list Z) (c : call) :
  In c (concat (map (calls_of st N ncrit theta type) os))
  <-> exists o, In o os /\ In c (calls_of st N ncrit theta type o).
Proof.
  rewrite in_concat. split.
  - intros (l & Hl & Hc). apply in_map_iff in Hl as (o & <- & Ho). eauto.
  - intros (o & Ho & Hc). exists (calls_of st N ncrit theta type o).
    split; [apply in_map; exact Ho | exact Hc].
Qed.

(** *** Which method fills the approximate field *)

Lemma orders_lookup (maxorder o : Z) :
  minorder <= o < maxorder ->
  orders maxorder !! Z.to_nat (o - minorder) = Some o.
Proof.
  intros H. unfold orders. rewrite list_lookup_fmap.
  rewrite lookup_seq_lt by lia. cbn. f_equal. lia.
Qed.

Lemma files_lookup (f : Z -> File) (maxorder o : Z) :
  minorder <= o < maxorder ->
  map f (orders maxorder) !! Z.to_nat (o - minorder) = Some (f o).
Proof.
  intros H. rewrite list_lookup_fmap, (orders_lookup _ _ H). reflexivity.
Qed.

(** C6: invoked as [<prog> Nparticles ncrit theta maxorder type] with
  arguments that convert, a run that succeeds returns 0; with type 0 the
  field of every order is computed by [compute_field_fmm] (and never by
  [compute_field_bh]), with type 1 by [compute_field_bh] (and never by
  [compute_field_fmm]), on the tree built for that order, and it is that
  field the report of the order is made from. *)
Theorem type_selects_method (prog a1 a2 a3 a4 a5 : string) (rest : list string)
      (N ncrit maxorder type : Z) (theta : double) (run : Run) :
  Std.stoul a1 = Std.Ret N -> Std.stoul a2 = Std.Ret ncrit ->
  stod a3 = Std.Ret theta -> Std.stoul a4 = Std.Ret maxorder ->
  Std.stoul a5 = Std.Ret type ->
  main alloc next seed stod to_string_double put_double build_tree
       compute_field_exact compute_field_fmm compute_field_bh
       (prog :: a1 :: a2 :: a3 :: a4 :: a5 :: rest) = Std.Ret run ->
  let st := setup next seed N in
  exit_code run = 0
  /\ (type = 0 ->
      (forall o : Z, ~ In (call_compute_field_bh o) (calls run))
      /\ forall order : Z, minorder <= order < maxorder ->
           In (call_compute_field_fmm order) (calls run)
           /\ exists (first tree : Tree) (f : File),
                build_tree (r st) (mu st) N ncrit minorder theta = inl first
                /\ build_tree (r st) (mu st) N ncrit order theta = inl tree
                /\ files run !! Z.to_nat (order - minorder) = Some f
                /\ f_lines f
                   = report put_double N
                       (through (zeros N) (compute_field_exact first (zeros N)))
                       (through (zeros N) (compute_field_fmm tree (zeros N))))
  /\ (type = 1 ->
      (forall o : Z, ~ In (call_compute_field_fmm o) (calls run))
      /\ forall order : Z, minorder <= order < maxorder ->
           In (call_compute_field_bh order) (calls run)
           /\ exists (first tree : Tree) (f : File),
                build_tree (r st) (mu st) N ncrit minorder theta = inl first
                /\ build_tree (r st) (mu st) N ncrit order theta = inl tree
                /\ files run !! Z.to_nat (order - minorder) = Some f
                /\ f_lines f
                   = report put_double N
                       (through (zeros N) (compute_field_exact first (zeros N)))
                       (through (zeros N) (compute_field_bh tree (zeros N)))).
Proof.
  intros H1 H2 H3 H4 H5 Hmain.
  destruct (parsed_run prog a1 a2 a3 a4 a5 rest N ncrit maxorder type theta run
              H1 H2 H3 H4 H5 Hmain) as (_ & _ & Hb & ->).
  cbn zeta in *. cbn [exit_code calls files].
  split; [reflexivity|]. split; intros ->.
  - split.
    + intros o Hin. apply in_calls_of in Hin as (o' & _ & Hin).
      unfold calls_of in Hin. cbn [Z.eqb app In] in Hin.
      destruct Hin as [Hin | Hin]; [discriminate|].
      apply in_app_or in Hin as [Hin | Hin].
      * destruct (o' =? minorder); cbn in Hin; [|contradiction].
        destruct Hin as [Hin|[]]; discriminate.
      * destruct Hin as [Hin|[]]; discriminate.
    + intros order Ho. split.
      * apply in_calls_of. exists order. split; [apply orders_range; exact Ho|].
        unfold calls_of. cbn [app]. right. apply in_or_app. right.
        cbn. left. reflexivity.
      * destruct (Hb minorder ltac:(lia)) as [first Hfirst].
        destruct (Hb order Ho) as [tree Htree].
        exists first, tree. eexists.
        split; [exact Hfirst|]. split; [exact Htree|].
        split; [apply files_lookup; exact Ho|].
        rewrite (file_of_built _ _ _ _ _ _ first tree Hfirst Htree).
        reflexivity.
  - split.
    + intros o Hin. apply in_calls_of in Hin as (o' & _ & Hin).
      unfold calls_of in Hin. cbn [Z.eqb Pos.eqb app In] in Hin.
      destruct Hin as [Hin | Hin]; [discriminate|].
      apply in_app_or in Hin as [Hin | Hin].
      * destruct (o' =? minorder); cbn in Hin; [|contradiction].
        destruct Hin as [Hin|[]]; discriminate.
      * destruct Hin as [Hin|[]]; discriminate.
    + intros order Ho. split.
      * apply in_calls_of. exists order. split; [apply orders_range; exact Ho|].
        unfold calls_of. cbn [app]. right. apply in_or_app. right.
        cbn. left. reflexivity.
      * destruct (Hb minorder ltac:(lia)) as [first Hfirst].
        destruct (Hb order Ho) as [tree Htree].
        exists first, tree. eexists.
        split; [exact Hfirst|]. split; [exact Htree|].
        split; [apply files_lookup; exact Ho|].
        rewrite (file_of_built _ _ _ _ _ _ first tree Hfirst Htree).
        reflexivity.
Qed.

(** *** The type argument *)

(** C9, as the code has it: [main] reads [argv[1]] to [argv[5]] without
  looking at [argc]; invoked with four arguments that parse, it builds a
  [std::string] from [argv[5]], the null pointer that ends [argv]. *)
Theorem type_argument_is_read (prog a1 a2 a3 a4 : string)
      (N ncrit maxorder : Z) (theta : double) :
  Std.stoul a1 = Std.Ret N -> Std.stoul a2 = Std.Ret ncrit ->
  stod a3 = Std.Ret theta -> Std.stoul a4 = Std.Ret maxorder ->
  main alloc next seed stod to_string_double put_double build_tree
       compute_field_exact compute_field_fmm compute_field_bh
       [prog; a1; a2; a3; a4]
  = Std.Undefined (Std.NullString 5).
Proof.
  intros H1 H2 H3 H4. unfold main. cbn [Std.arg lookup list_lookup Std.bind].
  rewrite H1. cbn [Std.bind]. rewrite H2. cbn [Std.bind].
  rewrite H3. cbn [Std.bind]. rewrite H4. cbn [Std.bind].
  reflexivity.
Qed.

End LazyFacts.

Section LazyWitness.

Import Word Lazy.
Local Open Scope Z_scope.

Lemma type_selects_method_witness :
  let alloc := fun (_ : nat) (_ : Z) => true in
  let next := fun g : Z => (Double.zero, (g + 1)%Z) in
  let stod := fun _ : string => Std.Ret (Double.div (Double.of_Z 1) (Double.of_Z 2)) in
  let ts := fun _ : double => "0.500000"%string in
  let build := fun (_ _ : list (option double)) (_ _ _ : Z) (_ : double) =>
                 @inl unit Std.exn tt in
  let id_field := fun (_ : unit) (F : list double) => F in
  Std.stoul "2" = Std.Ret 2 /\ Std.stoul "4" = Std.Ret 4
  /\ Std.stoul "1" = Std.Ret 1
  /\ exists run : Run,
       main alloc next 0 stod ts ts build id_field id_field id_field
            ["lazy"; "2"; "2"; "0.5"; "4"; "1"]%string = Std.Ret run
       /\ exit_code run = 0.
Proof.
  intros alloc next0 stod0 ts build id_field.
  assert (E2 : Std.stoul "2" = Std.Ret 2) by reflexivity.
  assert (E4 : Std.stoul "4" = Std.Ret 4) by reflexivity.
  assert (E1 : Std.stoul "1" = Std.Ret 1) by reflexivity.
  repeat (split; [assumption|]).
  eexists. split; [vm_compute; reflexivity|].
  match goal with |- exit_code ?run = 0 =>
    assert (Hmain : main alloc next0 0 stod0 ts ts build id_field id_field id_field
                      ["lazy"; "2"; "2"; "0.5"; "4"; "1"]%string = Std.Ret run)
      by (vm_compute; reflexivity)
  end.
  exact (proj1 (type_selects_method alloc next0 0 stod0 ts ts build
                  id_field id_field id_field
                  "lazy" "2" "2" "0.5" "4" "1" [] 2 2 4 1 _ _
                  E2 E2 eq_refl E4 E1 Hmain)).
Defined.

Lemma type_argument_is_read_witness :
  let alloc := fun (_ : nat) (_ : Z) => true in
  let next := fun g : Z => (Double.zero, (g + 1)%Z) in
  let stod := fun _ : string => Std.Ret (Double.div (Double.of_Z 1) (Double.of_Z 2)) in
  let ts := fun _ : double => "0.500000"%string in
  let build := fun (_ _ : list (option double)) (_ _ _ : Z) (_ : double) =>
                 @inl unit Std.exn tt in
  let id_field := fun (_ : unit) (F : list double) => F in
  Std.stoul "2" = Std.Ret 2 /\ Std.stoul "4" = Std.Ret 4
  /\ main alloc next 0 stod ts ts build id_field id_field id_field
          ["lazy"; "2"; "2"; "0.5"; "4"]%string
     = Std.Undefined (Std.NullString 5).
Proof.
  intros alloc next0 stod0 ts build id_field.
  assert (E2 : Std.stoul "2" = Std.Ret 2) by reflexivity.
  assert (E4 : Std.stoul "4" = Std.Ret 4) by reflexivity.
  repeat (split; [assumption|]).
  exact (type_argument_is_read alloc next0 0 stod0 ts ts build
           id_field id_field id_field
           "lazy" "2" "2" "0.5" "4" 2 2 4 _ E2 E2 eq_refl E4).
Defined.

(** C9 as stated fails: not every invocation with four arguments reaches
  [argv[5]]. With a first argument that is no number, [std::stoul] throws
  on line 17 and the program is terminated before line 21. *)
Lemma four_arguments_may_throw_first :
  let alloc := fun (_ : nat) (_ : Z) => true in
  let next := fun g : Z => (Double.zero, (g + 1)%Z) in
  let stod := fun _ : string => Std.Ret (Double.div (Double.of_Z 1) (Double.of_Z 2)) in
  let ts := fun _ : double => "0.500000"%string in
  let build := fun (_ _ : list (option double)) (_ _ _ : Z) (_ : double) =>
                 @inl unit Std.exn tt in
  let id_field := fun (_ : unit) (F : list double) => F in
  let argv := ["lazy"; "many"; "2"; "0.5"; "4"]%string in
  length argv = 5%nat
  /\ main alloc next 0 stod ts ts build id_field id_field id_field argv
     = Std.Throws Std.invalid_argument
  /\ main alloc next 0 stod ts ts build id_field id_field id_field argv
     <> Std.Undefined (Std.NullString 5).
Proof.
  cbv zeta. split; [reflexivity|]. split; [reflexivity | discriminate].
Qed.

End LazyWitness.

(** *** The error files *)

Section ErrorFiles.

Import Double Word Lazy.
Local Open Scope Z_scope.

Variable alloc : Std.allocator.
Context {rng : Type}.
Variable next : rng -> double * rng.
Variable seed : rng.
Variable stod : string -> Std.outcome double.
Variable to_string_double : double -> string.
Variable finite : double -> string.
Variable negative_nan : bool.
Context {Tree : Type}.
Variable build_tree :
  list (option double) -> list (option double) -> Z -> Z -> Z -> double
  -> Tree + Std.exn.
Variable compute_field_exact : Tree -> list double -> list double.
Variable compute_field_fmm : Tree -> list double -> list double.
Variable compute_field_bh : Tree -> list double -> list double.




End ErrorFiles.

Section ErrorFilesWitness.

Import Word Lazy.
Local Open Scope Z_scope.



End ErrorFilesWitness.

(** ** Build-time parameter checks *)

Section FacadeFacts.

Import Double Facade.
Local Open Scope Z_scope.

Variables root_x root_y root_z root_r : double.
Variable octree : list BH.Particle -> BH.Cell -> Z -> Z -> option (list BH.Cell).

(** C2: with ncrit < 1, order < 2, theta <= 0 or N = 0 the build fails with
  InvalidParameters, whatever the particles and whatever the octree
  builder would do; the failure carries no tree. *)
Theorem invalid_parameters_fail (positions moments : list double)
      (N ncrit order : Z) (theta : double) :
  ncrit < 1 \/ order < 2 \/ leb theta zero = true \/ N = 0 ->
  build_tree root_x root_y root_z root_r octree positions moments N ncrit order theta
  = Failed InvalidParameters
  /\ forall t : Tree,
       build_tree root_x root_y root_z root_r octree positions moments
                  N ncrit order theta <> Built t.
Proof.
  intros H.
  assert (Hbad : invalid_parameters N ncrit order theta = true).
  { unfold invalid_parameters.
    destruct H as [H | [H | [H | H]]].
    - apply Z.ltb_lt in H. rewrite H. reflexivity.
    - apply Z.ltb_lt in H. rewrite H, orb_true_r. reflexivity.
    - rewrite H, !orb_true_r. reflexivity.
    - apply Z.eqb_eq in H. rewrite H, !orb_true_r. reflexivity. }
  unfold build_tree. rewrite Hbad. split; [reflexivity | discriminate].
Qed.

End FacadeFacts.

Lemma invalid_parameters_fail_witness :
  let half := Double.div (Double.of_Z 1) (Double.of_Z 2) in
  let octree := fun (_ : list BH.Particle) (root : BH.Cell) (_ _ : Z) =>
                  Some [root] in
  ((0 < 1)%Z \/ (4 < 2)%Z \/ Double.leb half Double.zero = true \/ 2%Z = 0%Z)
  /\ Facade.build_tree Double.zero Double.zero Double.zero (Double.of_Z 1) octree
       [Double.zero; Double.zero; Double.zero; half; Double.zero; Double.zero]
       [Double.zero; Double.zero; Double.of_Z 1; Double.zero; Double.zero; Double.of_Z 1]
       2 0 4 half
     = Facade.Failed Facade.InvalidParameters.
Proof.
  intros half octree.
  assert (H : (0 < 1)%Z \/ (4 < 2)%Z \/ Double.leb half Double.zero = true
              \/ 2%Z = 0%Z) by (left; lia).
  split; [exact H|].
  exact (proj1 (invalid_parameters_fail Double.zero Double.zero Double.zero
                  (Double.of_Z 1) octree _ _ 2 0 4 half H)).
Defined.

(** ** More on [Cell::operator=] *)

Section AssignFacts.

(** After any run of assignments [c = o1; c = o2; ...; c = last] the FMM
    cell [c] is [last] in every field but [rmax], which is still the one
    [c] started with. *)
Theorem assign_sequence_keeps_rmax (others : list FMM.Cell) :
  forall (c last : FMM.Cell),
    fold_left FMM.assign (others ++ [last]) c = FMM.set_rmax (FMM.rmax c) last.
Proof.
  induction others as [|o others IH]; intros c last.
  - destruct c, last. reflexivity.
  - cbn [app fold_left]. rewrite IH. destruct c, o, last. reflexivity.
Qed.

(** The FMM assignment makes the target equal to the source exactly when
    the two cells already agree on [rmax]; in particular a self-assignment
    changes nothing. *)
Theorem assign_is_copy_iff_rmax (c other : FMM.Cell) :
  (FMM.assign c other = other <-> FMM.rmax c = FMM.rmax other)
  /\ FMM.assign c c = c.
Proof.
  split; [split|].
  - intros H. apply (f_equal FMM.rmax) in H. destruct c, other. exact H.
  - intros H. destruct c, other. cbn in *. subst. reflexivity.
  - destruct c. reflexivity.
Qed.

(** The BH assignment copies every field: whatever the target was, it
    equals the source afterwards, and a run of assignments leaves the last
    source. *)
Theorem bh_assign_is_copy (others : list BH.Cell) :
  forall (c last : BH.Cell),
    BH.assign c last = last
    /\ fold_left BH.assign (others ++ [last]) c = last.
Proof.
  assert (Hcopy : forall c o : BH.Cell, BH.assign c o = o)
    by (intros c o; destruct c, o; reflexivity).
  induction others as [|o others IH]; intros c last.
  - split; [apply Hcopy | cbn; apply Hcopy].
  - split; [apply Hcopy|]. cbn [app fold_left]. apply IH.
Qed.

End AssignFacts.

(** ** More on [scaling_test.cpp] *)

Section ScalingMore.

Import Double Word FMM ScalingTest.
Local Open Scope Z_scope.

Variable alloc : Std.allocator.
Context {rng : Type}.
Variable next : rng -> double * rng.
Variable seed : rng.
Variable stod : string -> Std.outcome double.
Variable new_Cell : double -> double -> double -> double -> Z -> Z -> Z -> Z -> Cell.
Variable build_tree : Heap -> list Particle -> Cell -> Z -> Z -> list Cell.
Variable evaluate_direct : Heap -> list Particle -> list double -> Z -> list double.

Lemma body_moments (i : Z) (st : Gen) :
  h_mu (heap (body next i st))
  = Lazy.store3 (h_mu (heap st)) i (ScalingMoments.moment_of next (generator st))
  /\ generator (body next i st) = Lazy.state_after next (generator st) 6.
Proof.
  unfold body, fill, Lazy.store3, ScalingMoments.moment_of, Lazy.draw.
  cbn [Lazy.state_after Lazy.component].
  destruct (next (generator st)) as [mux g1]. cbn [fst snd].
  destruct (next g1) as [muy g2]. cbn [fst snd].
  destruct (next g2) as [muz g3]. cbn [fst snd].
  destruct (next g3) as [x g4]. cbn [fst snd].
  destruct (next g4) as [y g5]. cbn [fst snd].
  destruct (next g5) as [z g6]. cbn [fst snd].
  split; reflexivity.
Qed.

Lemma generate_moments (n : nat) : forall (i : Z) (st st' : Gen),
  0 <= i -> 3 * (i + Z.of_nat n) <= SIZE_MAX ->
  generate alloc next n i st = Std.Ret st' ->
  length (h_mu (heap st')) = length (h_mu (heap st))
  /\ (forall j : nat, (j < 3 * Z.to_nat i)%nat ->
        h_mu (heap st') !! j = h_mu (heap st) !! j)
  /\ (forall k c : nat, (k < n)%nat -> (c < 3)%nat ->
        (3 * (Z.to_nat i + k) + c < length (h_mu (heap st)))%nat ->
        h_mu (heap st') !! (3 * (Z.to_nat i + k) + c)%nat
        = Some (Some (Lazy.component c
              (ScalingMoments.moment_of next
                 (Lazy.state_after next (generator st) (6 * k))))))
  /\ generator st' = Lazy.state_after next (generator st) (6 * n).
Proof.
  induction n as [|n IH]; intros i st st' Hi Hmax Hgen; cbn [generate] in Hgen.
  - injection Hgen as <-. repeat split; intros; lia.
  - apply bind_Ret in Hgen as (_ & _ & Hgen).
    destruct (body_moments i st) as (Hmu & Hg).
    destruct (IH (i + 1) (body next i st) st' ltac:(lia) ltac:(lia) Hgen)
      as (Lmu & Hbelow & Hat & Hgen').
    rewrite Lmu, Hmu, store3_length.
    split; [reflexivity|]. split; [|split].
    + intros j Hj. rewrite Hbelow by lia. rewrite Hmu.
      apply store3_below; lia.
    + intros k c Hk Hc Hlen. destruct k as [|k].
      * rewrite Nat.add_0_r, Hbelow by lia.
        rewrite Hmu. cbn [Nat.mul Lazy.state_after]. apply store3_at; lia.
      * replace (3 * (Z.to_nat i + S k) + c)%nat
          with (3 * (Z.to_nat (i + 1) + k) + c)%nat by lia.
        rewrite Hat; [| lia | lia | rewrite Hmu, store3_length; lia].
        rewrite Hg. replace (6 * S k)%nat with (6 + 6 * k)%nat by lia.
        rewrite (state_after_add next). reflexivity.
    + rewrite Hgen', Hg. replace (6 * S n)%nat with (6 + 6 * n)%nat by lia.
      rewrite (state_after_add next). reflexivity.
Qed.

(** Unlike the positions, the moments are stored: after the generation
    loop every particle points at three initialised doubles of [mu], the
    numbers drawn for it divided by their norm, and the engine has
    advanced by six numbers per particle. *)
Theorem moments_are_stored (argv : list string) (run : Run) :
  main alloc next seed stod new_Cell build_tree evaluate_direct argv = Std.Ret run ->
  3 * run_N run <= SIZE_MAX ->
  let st := run_gen run in
  (forall (i : nat) (p : Particle) (c : nat),
     particles st !! i = Some p -> (c < 3)%nat ->
     p_mu p = At BlkMu (3 * Z.of_nat i)
     /\ load (heap st) (p_mu p) (Z.of_nat c)
        = Some (Some (Lazy.component c
              (ScalingMoments.moment_of next
                 (Lazy.state_after next seed (6 * i))))))
  /\ generator st = Lazy.state_after next seed (6 * Z.to_nat (run_N run)).
Proof.
  intros Hmain.
  destruct (main_inv _ _ _ _ _ _ _ _ _ Hmain)
    as (prog & a1 & a2 & a3 & a4 & rest & N & ncrit & maxorder & theta & st & es
        & _ & HN & _ & _ & _ & Hst & _ & ->).
  cbn [run_N run_gen]. intros Hmax.
  apply stoul_range in HN as [HN0 _].
  destruct (setup_effect alloc next seed N st HN0 Hmax Hst) as [_ Hp].
  unfold setup in Hst.
  destruct (generate_moments (Z.to_nat N) 0 _ st ltac:(lia) ltac:(lia) Hst)
    as (Lmu & _ & Hat & Hgen).
  cbn [heap h_mu generator] in *.
  unfold new_double in Lmu, Hat. rewrite length_replicate in Lmu, Hat.
  rewrite (wrap64_small (3 * N)) in * by lia.
  split; [|exact Hgen].
  intros i p c Hi Hc. rewrite Hp in Hi. rewrite list_lookup_fmap in Hi.
  destruct (seq 0 (Z.to_nat N) !! i) as [k|] eqn:Hk; [|discriminate].
  apply lookup_seq in Hk as [-> Hlt]. cbn in Hi. injection Hi as <-.
  cbn [pushed p_mu]. rewrite wrap64_small by lia.
  split; [reflexivity|].
  unfold load.
  destruct (0 <=? 3 * Z.of_nat i + Z.of_nat c) eqn:Hge; [|apply Z.leb_gt in Hge; lia].
  replace (Z.to_nat (3 * Z.of_nat i + Z.of_nat c)) with (3 * (Z.to_nat 0 + i) + c)%nat
    by lia.
  apply Hat; lia.
Qed.

(** [main] reads nothing after its fourth argument, so what follows it
    does not change the run. A run that returns has converted its four
    arguments and holds one set of expansions per order from 2 up to
    [maxorder - 1] (none when [maxorder <= 2], although the direct sum has
    been evaluated by then). A particle count whose triple, taken in
    [size_t], is more than a vector of doubles can hold ends the run by
    [length_error] at line 26, before anything is generated. *)
Theorem main_reads_four_arguments (argv : list string) :
  (forall (prog a1 a2 a3 a4 : string) (rest : list string),
     argv = prog :: a1 :: a2 :: a3 :: a4 :: rest ->
     main alloc next seed stod new_Cell build_tree evaluate_direct argv
     = main alloc next seed stod new_Cell build_tree evaluate_direct
            [prog; a1; a2; a3; a4])
  /\ (forall run,
        main alloc next seed stod new_Cell build_tree evaluate_direct argv
        = Std.Ret run ->
        (exists (prog a1 a2 a3 a4 : string) (rest : list string),
           argv = prog :: a1 :: a2 :: a3 :: a4 :: rest
           /\ Std.stoul a1 = Std.Ret (run_N run)
           /\ Std.stoul a2 = Std.Ret (run_ncrit run)
           /\ stod a3 = Std.Ret (run_theta run)
           /\ Std.stoul a4 = Std.Ret (run_maxorder run))
        /\ wrap64 (3 * run_N run) <= Std.PTRDIFF_MAX / 8
        /\ map fst (run_orders run)
           = map (fun k => 2 + Z.of_nat k) (seq 0 (Z.to_nat (run_maxorder run - 2)))
        /\ run_F_exact run
           = evaluate_direct (heap (run_gen run)) (particles (run_gen run))
               (replicate (Z.to_nat (wrap64 (3 * run_N run))) zero) (run_N run))
  /\ (forall (prog a1 a2 a3 a4 : string) (rest : list string)
             (N ncrit maxorder : Z) (theta : double),
        argv = prog :: a1 :: a2 :: a3 :: a4 :: rest ->
        Std.stoul a1 = Std.Ret N -> Std.stoul a2 = Std.Ret ncrit ->
        stod a3 = Std.Ret theta -> Std.stoul a4 = Std.Ret maxorder ->
        Std.PTRDIFF_MAX / 8 < wrap64 (3 * N) ->
        main alloc next seed stod new_Cell build_tree evaluate_direct argv
        = Std.Throws Std.length_error).
Proof.
  split; [|split].
  - intros prog a1 a2 a3 a4 rest ->. reflexivity.
  - intros run Hmain. pose proof Hmain as Hrun. unfold main in Hrun.
    destruct (main_inv _ _ _ _ _ _ _ _ _ Hmain)
      as (prog & a1 & a2 & a3 & a4 & rest & N & ncrit & maxorder & theta & st & es
          & -> & H1 & H2 & H3 & H4 & Hst & Hes & ->).
    cbn [run_orders run_maxorder run_F_exact run_gen run_N run_ncrit run_theta].
    split; [exists prog, a1, a2, a3, a4, rest; repeat split; assumption|].
    split.
    { cbn [Std.arg lookup list_lookup Std.bind] in Hrun.
      rewrite H1 in Hrun. cbn [Std.bind] in Hrun.
      rewrite H2 in Hrun. cbn [Std.bind] in Hrun.
      rewrite H3 in Hrun. cbn [Std.bind] in Hrun.
      rewrite H4 in Hrun. cbn [Std.bind] in Hrun.
      apply bind_Ret in Hrun as (u & Hv & _).
      apply new_vector_Ret in Hv as [Hle _]. exact Hle. }
    split; [|reflexivity].
    exact (proj1 (sweep_effect alloc new_Cell build_tree st N ncrit _ es Hes)).
  - intros prog a1 a2 a3 a4 rest N ncrit maxorder theta -> H1 H2 H3 H4 Hbig.
    unfold main. cbn [Std.arg lookup list_lookup Std.bind].
    rewrite H1. cbn [Std.bind]. rewrite H2. cbn [Std.bind].
    rewrite H3. cbn [Std.bind]. rewrite H4. cbn [Std.bind].
    unfold Std.new_vector. apply Z.ltb_lt in Hbig. rewrite Hbig. reflexivity.
Qed.

End ScalingMore.

Lemma moments_are_stored_witness :
  let alloc := fun (_ : nat) (_ : Z) => true in
  let next := fun g : Z => (Double.of_Z (g mod 5 - 2), (g + 1)%Z) in
  let stod := fun _ : string => Std.Ret (Double.div (Double.of_Z 1) (Double.of_Z 2)) in
  let new_Cell := fun (x y z r : double) (parent order level ncrit : Z) =>
                    FMM.mkCell 0 0 level [] Wild Wild [] x y z r r parent in
  let build_tree := fun (_ : ScalingTest.Heap) (_ : list FMM.Particle)
                        (root : FMM.Cell) (_ _ : Z) => [root] in
  let evaluate_direct := fun (_ : ScalingTest.Heap) (_ : list FMM.Particle)
                             (F : list double) (_ : Z) => F in
  exists run : ScalingTest.Run,
    ScalingTest.main alloc next 0%Z stod new_Cell build_tree evaluate_direct
                     ["scaling_test"; "2"; "2"; "0.5"; "4"]%string = Std.Ret run
    /\ (3 * ScalingTest.run_N run <= Word.SIZE_MAX)%Z
    /\ ScalingTest.generator (ScalingTest.run_gen run)
       = Lazy.state_after next 0%Z (6 * Z.to_nat (ScalingTest.run_N run)).
Proof.
  intros alloc next stod new_Cell build_tree evaluate_direct.
  eexists. split; [vm_compute; reflexivity|].
  match goal with |- (3 * ScalingTest.run_N ?run <= _)%Z /\ _ =>
    assert (Hmain : ScalingTest.main alloc next 0%Z stod new_Cell build_tree
                      evaluate_direct
                      ["scaling_test"; "2"; "2"; "0.5"; "4"]%string = Std.Ret run)
      by (vm_compute; reflexivity);
    assert (Hmax : (3 * ScalingTest.run_N run <= Word.SIZE_MAX)%Z)
      by (vm_compute; discriminate)
  end.
  split; [exact Hmax|].
  exact (proj2 (moments_are_stored alloc next 0%Z stod new_Cell build_tree
                  evaluate_direct _ _ Hmain Hmax)).
Defined.

Lemma main_reads_four_arguments_witness :
  let alloc := fun (_ : nat) (_ : Z) => true in
  let next := fun g : Z => (Double.of_Z (g mod 5 - 2), (g + 1)%Z) in
  let stod := fun _ : string => Std.Ret (Double.div (Double.of_Z 1) (Double.of_Z 2)) in
  let new_Cell := fun (x y z r : double) (parent order level ncrit : Z) =>
                    FMM.mkCell 0 0 level [] Wild Wild [] x y z r r parent in
  let build_tree := fun (_ : ScalingTest.Heap) (_ : list FMM.Particle)
                        (root : FMM.Cell) (_ _ : Z) => [root] in
  let evaluate_direct := fun (_ : ScalingTest.Heap) (_ : list FMM.Particle)
                             (F : list double) (_ : Z) => F in
  Std.stoul "-1" = Std.Ret (2 ^ 64 - 1)%Z
  /\ (Std.PTRDIFF_MAX / 8 < Word.wrap64 (3 * (2 ^ 64 - 1)))%Z
  /\ ScalingTest.main alloc next 0%Z stod new_Cell build_tree evaluate_direct
                      ["scaling_test"; "-1"; "2"; "0.5"; "2"]%string
     = Std.Throws Std.length_error.
Proof.
  intros alloc next stod new_Cell build_tree evaluate_direct.
  assert (E1 : Std.stoul "-1" = Std.Ret (2 ^ 64 - 1)%Z) by reflexivity.
  assert (E2 : Std.stoul "2" = Std.Ret 2%Z) by reflexivity.
  assert (Hbig : (Std.PTRDIFF_MAX / 8 < Word.wrap64 (3 * (2 ^ 64 - 1)))%Z)
    by reflexivity.
  split; [exact E1|]. split; [exact Hbig|].
  exact (proj2 (proj2 (main_reads_four_arguments alloc next 0%Z stod new_Cell
                         build_tree evaluate_direct
                         ["scaling_test"; "-1"; "2"; "0.5"; "2"]%string))
           "scaling_test" "-1" "2" "0.5" "2" []%string (2 ^ 64 - 1)%Z 2%Z 2%Z _
           eq_refl E1 E2 eq_refl E2 Hbig).
Defined.

(** ** More on the coefficient arenas *)

Section ArenaMore.

Import Double Word ScalingTest.
Local Open Scope Z_scope.

Lemma allocate_pointers (order : Z) (cells : list FMM.Cell) (k : nat) (c : FMM.Cell) :
  1 <= order ->
  Z.of_nat (length cells) * (Utils.Nterms order - Utils.Nterms 0) <= SIZE_MAX ->
  Z.of_nat (length cells) * Utils.Nterms (order - 1) <= SIZE_MAX ->
  e_cells (allocate_expansions order cells) !! k = Some c ->
  (k < length cells)%nat
  /\ 1 <= Utils.Nterms order - Utils.Nterms 0
  /\ 1 <= Utils.Nterms (order - 1)
  /\ FMM.M c = At BlkM (Z.of_nat k * (Utils.Nterms order - Utils.Nterms 0))
  /\ FMM.L c = At BlkL (Z.of_nat k * Utils.Nterms (order - 1))
  /\ length (e_M (allocate_expansions order cells))
     = Z.to_nat (Z.of_nat (length cells) * (Utils.Nterms order - Utils.Nterms 0))
  /\ length (e_L (allocate_expansions order cells))
     = Z.to_nat (Z.of_nat (length cells) * Utils.Nterms (order - 1)).
Proof.
  intros Ho HM HL Hk.
  destruct (allocate_cell _ _ _ _ Hk) as (c0 & Hc0 & ->).
  apply lookup_lt_Some in Hc0.
  pose proof (Nterms_lower order ltac:(lia)) as HlM.
  pose proof (Nterms_lower (order - 1) ltac:(lia)) as HlL.
  pose proof Nterms_0 as H0.
  set (M_len := Utils.Nterms order - Utils.Nterms 0) in *.
  set (L_len := Utils.Nterms (order - 1)) in *.
  assert (HMl : 1 <= M_len <= SIZE_MAX).
  { assert (1 <= M_len) by (unfold M_len; lia). split; [lia | nia]. }
  assert (HLl : 1 <= L_len <= SIZE_MAX).
  { assert (1 <= L_len) by (unfold L_len; lia). split; [lia | nia]. }
  assert (EM : M_stride order = M_len) by (apply M_stride_exact; fold M_len; lia).
  assert (EL : L_stride order = L_len) by (apply L_stride_exact; fold L_len; lia).
  split; [exact Hc0|]. split; [lia|]. split; [lia|].
  unfold allocate_expansions, point_cell. cbn.
  rewrite EM, EL, !length_replicate, !wrap64_small by nia.
  repeat split.
Qed.

(** The slices of two different cells never overlap, in either arena, and
    the slice of a cell lies inside its arena and holds zeros when the
    sweeps start. The arenas have to fit [size_t]. *)
Theorem arena_slices_disjoint_and_zero (order : Z) (cells : list FMM.Cell)
      (k1 k2 : nat) (c1 c2 : FMM.Cell) :
  let e := allocate_expansions order cells in
  let M_len := Utils.Nterms order - Utils.Nterms 0 in
  let L_len := Utils.Nterms (order - 1) in
  1 <= order ->
  Z.of_nat (length cells) * M_len <= SIZE_MAX ->
  Z.of_nat (length cells) * L_len <= SIZE_MAX ->
  e_cells e !! k1 = Some c1 -> e_cells e !! k2 = Some c2 ->
  exists m1 m2 l1 l2 : Z,
    FMM.M c1 = At BlkM m1 /\ FMM.M c2 = At BlkM m2
    /\ FMM.L c1 = At BlkL l1 /\ FMM.L c2 = At BlkL l2
    /\ (k1 <> k2 -> (m1 + M_len <= m2 \/ m2 + M_len <= m1)
                   /\ (l1 + L_len <= l2 \/ l2 + L_len <= l1))
    /\ (forall j : Z, 0 <= j < M_len -> e_M e !! Z.to_nat (m1 + j) = Some zero)
    /\ (forall j : Z, 0 <= j < L_len -> e_L e !! Z.to_nat (l1 + j) = Some zero).
Proof.
  intros e M_len L_len Ho HM HL H1 H2.
  destruct (allocate_pointers order cells k1 c1 Ho HM HL H1)
    as (Hk1 & HM1 & HL1 & EM1 & EL1 & LM & LL).
  destruct (allocate_pointers order cells k2 c2 Ho HM HL H2)
    as (Hk2 & _ & _ & EM2 & EL2 & _ & _).
  fold M_len in HM1, EM1, EM2, LM. fold L_len in HL1, EL1, EL2, LL.
  exists (Z.of_nat k1 * M_len), (Z.of_nat k2 * M_len),
         (Z.of_nat k1 * L_len), (Z.of_nat k2 * L_len).
  repeat (split; [assumption|]).
  split; [|split].
  - intros Hne. split; nia.
  - intros j Hj. unfold e, allocate_expansions. cbn [e_M].
    apply lookup_replicate_2.
    unfold e, allocate_expansions in LM. cbn [e_M] in LM.
    rewrite length_replicate in LM. rewrite LM. nia.
  - intros j Hj. unfold e, allocate_expansions. cbn [e_L].
    apply lookup_replicate_2.
    unfold e, allocate_expansions in LL. cbn [e_L] in LL.
    rewrite length_replicate in LL. rewrite LL. nia.
Qed.

(** Pointing the cells into the arenas touches nothing but [M] and [L]:
    the cell vector keeps its length and order, and every cell is what it
    was once its two pointers are put back. *)
Theorem allocate_changes_only_pointers (order : Z) (cells : list FMM.Cell) :
  let e := allocate_expansions order cells in
  length (e_cells e) = length cells
  /\ forall (k : nat) (c0 : FMM.Cell), cells !! k = Some c0 ->
       exists c : FMM.Cell,
         e_cells e !! k = Some c
         /\ FMM.set_L (FMM.L c0) (FMM.set_M (FMM.M c0) c) = c0.
Proof.
  cbn zeta. unfold allocate_expansions. cbn [e_cells]. split.
  - apply length_imap.
  - intros k c0 Hk. rewrite list_lookup_imap, Hk. cbn.
    eexists. split; [reflexivity|]. destruct c0. reflexivity.
Qed.

End ArenaMore.

Lemma arena_slices_disjoint_and_zero_witness :
  let c0 := FMM.mkCell 0 0 0 [] Wild Wild [] Double.zero Double.zero Double.zero
                       (Double.of_Z 1) (Double.of_Z 1) 0 in
  let e := ScalingTest.allocate_expansions 2 [c0; c0] in
  let c1 := ScalingTest.point_cell 2 0 c0 in
  let c2 := ScalingTest.point_cell 2 1 c0 in
  ScalingTest.e_cells e !! 0%nat = Some c1
  /\ ScalingTest.e_cells e !! 1%nat = Some c2
  /\ exists m1 m2 : Z,
       FMM.M c1 = At BlkM m1 /\ FMM.M c2 = At BlkM m2
       /\ ((m1 + 9 <= m2)%Z \/ (m2 + 9 <= m1)%Z).
Proof.
  intros c0 e c1 c2.
  assert (H1 : ScalingTest.e_cells e !! 0%nat = Some c1) by reflexivity.
  assert (H2 : ScalingTest.e_cells e !! 1%nat = Some c2) by reflexivity.
  split; [exact H1|]. split; [exact H2|].
  destruct (arena_slices_disjoint_and_zero 2 [c0; c0] 0 1 c1 c2)
    as (m1 & m2 & l1 & l2 & HM1 & HM2 & _ & _ & Hdis & _);
    [lia | vm_compute; discriminate | vm_compute; discriminate
     | exact H1 | exact H2 |].
  exists m1, m2. split; [exact HM1|]. split; [exact HM2|].
  exact (proj1 (Hdis ltac:(lia))).
Defined.

(** ** More on [lazy.cpp] *)

Section LazyMore.

Import Double Word Lazy LazyTrace.
Local Open Scope Z_scope.

Variable alloc : Std.allocator.
Context {rng : Type}.
Variable next : rng -> double * rng.
Variable seed : rng.
Variable stod : string -> Std.outcome double.
Variable to_string_double : double -> string.
Variable put_double : double -> string.
Context {Tree : Type}.
Variable build_tree :
  list (option double) -> list (option double) -> Z -> Z -> Z -> double
  -> Tree + Std.exn.
Variable compute_field_exact : Tree -> list double -> list double.
Variable compute_field_fmm : Tree -> list double -> list double.
Variable compute_field_bh : Tree -> list double -> list double.

Local Abbreviation run_main :=
  (main alloc next seed stod to_string_double put_double build_tree
        compute_field_exact compute_field_fmm compute_field_bh).

Lemma stoul_defined (s : string) (u : Std.undefined) :
  Std.stoul s <> Std.Undefined u.
Proof.
  unfold Std.stoul.
  destruct (match Std.skip_space s with
            | String "-" s' => (true, s')
            | String "+" s' => (false, s')
            | _ => (false, Std.skip_space s)
            end) as [neg rest].
  destruct (Std.digits rest 0 false) as [d|]; [|discriminate].
  destruct (SIZE_MAX <? d); discriminate.
Qed.

(** The only undefined step of the order loop is the subscript of an
    empty vector. *)
Lemma loop_undefined (st : @Gen rng) (N ncrit : Z) (theta : double) (type : Z)
      (os : list Z) : forall (l : Loop) (u : Std.undefined),
  loop to_string_double put_double build_tree compute_field_exact
       compute_field_fmm compute_field_bh st N ncrit theta type os l
  = Std.Undefined u ->
  u = Std.EmptySubscript.
Proof.
  induction os as [|o os IH]; intros l u H; cbn [loop] in H; [discriminate|].
  apply bind_Undefined in H as [H | (l1 & _ & H)]; [|exact (IH _ _ H)].
  unfold iteration in H.
  apply bind_Undefined in H as [H | (t & _ & H)];
    [exfalso; exact (of_call_defined _ _ H)|].
  apply bind_Undefined in H as [H | ([Fe cs] & _ & H)].
  { destruct ((o =? minorder) && negb (calc_direct =? 0)); [|discriminate].
    apply bind_Undefined in H as [H | (? & _ & H)]; [|discriminate].
    apply first_element_Undefined in H as [-> _]. reflexivity. }
  apply bind_Undefined in H as [H | ([Fa cs'] & _ & H)]; [|discriminate].
  destruct (type =? 0); [|destruct (type =? 1); [|discriminate]];
    (apply bind_Undefined in H as [H | (? & _ & H)]; [|discriminate]);
    apply first_element_Undefined in H as [-> _]; reflexivity.
Qed.

(** Once the five arguments are there, [main] reads [argv] no more. *)
Lemma main_undefined (prog a1 a2 a3 a4 a5 : string) (rest : list string)
      (u : Std.undefined) :
  (forall (s : string) (u : Std.undefined), stod s <> Std.Undefined u) ->
  run_main (prog :: a1 :: a2 :: a3 :: a4 :: a5 :: rest) = Std.Undefined u ->
  u = Std.EmptySubscript.
Proof.
  intros Hstod H. unfold main in H.
  cbn [Std.arg lookup list_lookup Std.bind] in H.
  apply bind_Undefined in H as [H | (N & _ & H)];
    [exfalso; exact (stoul_defined _ _ H)|].
  apply bind_Undefined in H as [H | (ncrit & _ & H)];
    [exfalso; exact (stoul_defined _ _ H)|].
  apply bind_Undefined in H as [H | (theta & _ & H)];
    [exfalso; exact (Hstod _ _ H)|].
  apply bind_Undefined in H as [H | (maxorder & _ & H)];
    [exfalso; exact (stoul_defined _ _ H)|].
  apply bind_Undefined in H as [H | (type & _ & H)];
    [exfalso; exact (stoul_defined _ _ H)|].
  apply bind_Undefined in H as [H | (? & _ & H)];
    [exfalso; exact (new_vector_defined _ _ _ _ _ H)|].
  apply bind_Undefined in H as [H | (? & _ & H)];
    [exfalso; exact (new_vector_defined _ _ _ _ _ H)|].
  apply bind_Undefined in H as [H | (? & _ & H)];
    [exfalso; exact (new_double_array_defined _ _ _ _ H)|].
  apply bind_Undefined in H as [H | (? & _ & H)];
    [exfalso; exact (new_double_array_defined _ _ _ _ H)|].
  apply bind_Undefined in H as [H | (l & _ & H)]; [|discriminate].
  exact (loop_undefined _ _ _ _ _ _ _ _ H).
Qed.

(** [main] returns exactly when its five arguments are there and convert,
    the particle count is one the two vectors and the two arrays can have,
    the storage for them is granted, there is a particle unless the loop
    has nothing to do, and [build_tree] returns for every order of the
    loop; it then returns 0. A bad argument never gives a non-zero return
    value: it ends the program by an exception nobody catches, and so does
    a particle count that is more than a vector of doubles can hold
    ([length_error] at line 32). Without a particle, the first iteration
    of the loop takes [&F_exact[0]] of an empty vector. What follows the
    fifth argument is not read. *)
Theorem lazy_main_returns_iff (argv : list string) :
  ((exists run, run_main argv = Std.Ret run)
   <-> exists (prog a1 a2 a3 a4 a5 : string) (rest : list string)
              (N ncrit maxorder type : Z) (theta : double),
         argv = prog :: a1 :: a2 :: a3 :: a4 :: a5 :: rest
         /\ Std.stoul a1 = Std.Ret N /\ Std.stoul a2 = Std.Ret ncrit
         /\ stod a3 = Std.Ret theta /\ Std.stoul a4 = Std.Ret maxorder
         /\ Std.stoul a5 = Std.Ret type
         /\ granted alloc N
         /\ (maxorder <= minorder \/ 0 < N)
         /\ forall order : Z, minorder <= order < maxorder ->
              exists t : Tree,
                build_tree (r (setup next seed N)) (mu (setup next seed N))
                           N ncrit order theta = inl t)
  /\ (forall run, run_main argv = Std.Ret run -> exit_code run = 0)
  /\ (forall (prog a1 a2 a3 a4 a5 : string) (rest : list string),
        argv = prog :: a1 :: a2 :: a3 :: a4 :: a5 :: rest ->
        run_main argv = run_main [prog; a1; a2; a3; a4; a5])
  /\ (forall (prog a1 a2 a3 a4 a5 : string) (rest : list string)
             (N ncrit maxorder type : Z) (theta : double),
        argv = prog :: a1 :: a2 :: a3 :: a4 :: a5 :: rest ->
        Std.stoul a1 = Std.Ret N -> Std.stoul a2 = Std.Ret ncrit ->
        stod a3 = Std.Ret theta -> Std.stoul a4 = Std.Ret maxorder ->
        Std.stoul a5 = Std.Ret type ->
        (Std.PTRDIFF_MAX / 8 < N ->
         run_main argv = Std.Throws Std.length_error)
        /\ (N = 0 -> minorder < maxorder -> granted alloc N ->
            (exists t : Tree,
               build_tree (r (setup next seed N)) (mu (setup next seed N))
                          N ncrit minorder theta = inl t) ->
            run_main argv = Std.Undefined Std.EmptySubscript)).
Proof.
  split; [split|split; [|split]].
  - intros [run Hmain].
    destruct (lazy_main_inv _ _ _ _ _ _ _ _ _ _ _ _ Hmain)
      as (prog & a1 & a2 & a3 & a4 & a5 & rest & N & ncrit & maxorder & type
          & theta & Hargv & H1 & H2 & H3 & H4 & H5 & Hg & Hpos & Hb & _).
    exists prog, a1, a2, a3, a4, a5, rest, N, ncrit, maxorder, type, theta.
    split; [exact Hargv|]. repeat (split; [assumption|]). exact Hb.
  - intros (prog & a1 & a2 & a3 & a4 & a5 & rest & N & ncrit & maxorder & type
            & theta & -> & H1 & H2 & H3 & H4 & H5 & Hg & Hpos & Hb).
    eexists.
    exact (main_runs alloc next seed stod to_string_double put_double build_tree
             compute_field_exact compute_field_fmm compute_field_bh
             prog a1 a2 a3 a4 a5 rest N ncrit maxorder type theta
             H1 H2 H3 H4 H5 Hg Hpos Hb).
  - intros run Hmain.
    destruct (lazy_main_inv _ _ _ _ _ _ _ _ _ _ _ _ Hmain)
      as (prog & a1 & a2 & a3 & a4 & a5 & rest & N & ncrit & maxorder & type
          & theta & _ & _ & _ & _ & _ & _ & _ & _ & _ & ->).
    reflexivity.
  - intros prog a1 a2 a3 a4 a5 rest ->. reflexivity.
  - intros prog a1 a2 a3 a4 a5 rest N ncrit maxorder type theta
           -> H1 H2 H3 H4 H5.
    split.
    + intros Hbig.
      unfold main. cbn [Std.arg lookup list_lookup Std.bind].
      rewrite H1. cbn [Std.bind]. rewrite H2. cbn [Std.bind].
      rewrite H3. cbn [Std.bind]. rewrite H4. cbn [Std.bind].
      rewrite H5. cbn [Std.bind].
      unfold Std.new_vector. apply Z.ltb_lt in Hbig. rewrite Hbig. reflexivity.
    + intros -> Hlt Hg [t Ht].
      unfold main. cbn [Std.arg lookup list_lookup Std.bind].
      rewrite H1. cbn [Std.bind]. rewrite H2. cbn [Std.bind].
      rewrite H3. cbn [Std.bind]. rewrite H4. cbn [Std.bind].
      rewrite H5. cbn [Std.bind].
      apply (granted_allocations alloc 0 ltac:(lia)) in Hg as (G0 & G1 & G2 & G3).
      rewrite G0. cbn [Std.bind]. rewrite G1. cbn [Std.bind].
      rewrite G2. cbn [Std.bind]. rewrite G3. cbn [Std.bind].
      rewrite (orders_unfold maxorder Hlt). cbn [loop].
      unfold iteration. rewrite Ht. reflexivity.
Qed.

(** With at least the program name in [argv], [main] never reads past the
    null pointer that ends [argv]: the only undefined read it can make is
    of that null pointer itself, and with five or fewer entries it never
    returns. [std::stod] is taken to return or throw. *)
Theorem lazy_argv_reads (argv : list string) :
  (forall (s : string) (u : Std.undefined), stod s <> Std.Undefined u) ->
  argv <> [] ->
  (forall i : nat, run_main argv <> Std.Undefined (Std.ArgvOverrun i))
  /\ (forall i : nat, run_main argv = Std.Undefined (Std.NullString i) ->
        i = length argv /\ (length argv <= 5)%nat)
  /\ ((length argv <= 5)%nat -> forall run, run_main argv <> Std.Ret run).
Proof.
  intros Hstod Hne.
  destruct argv as [|prog [|a1 [|a2 [|a3 [|a4 [|a5 rest]]]]]]; [contradiction|..].
  6:{ split; [intros i H; apply (main_undefined _ _ _ _ _ _ _ _ Hstod) in H;
                 discriminate|].
      split; [intros i H; apply (main_undefined _ _ _ _ _ _ _ _ Hstod) in H;
                 discriminate|].
      cbn [length]. intros Hlen. lia. }
  all: unfold main; cbn [Std.arg Std.bind lookup list_lookup length Nat.eqb];
    repeat match goal with
    | |- context [Std.bind (Std.stoul ?a) _] =>
        let E := fresh "E" in
        destruct (Std.stoul a) eqn:E; cbn [Std.bind];
        [ | | exfalso; exact (stoul_defined _ _ E)]
    | |- context [Std.bind (stod ?a) _] =>
        let E := fresh "E" in
        destruct (stod a) eqn:E; cbn [Std.bind];
        [ | | exfalso; exact (Hstod _ _ E)]
    end;
    (split; [intros i H; discriminate|]);
    (split; [intros i H;
             first [discriminate
                   | injection H as <-; cbn; split; [reflexivity | lia]]
            | intros Hlen run H;
              first [discriminate | cbn in Hlen; lia]]).
Qed.

(** When every argument that is there converts and fewer than five are
    there, the run ends at the null pointer: reading [argv[argc]] is what
    stops it, whichever argument is the first one missing. *)
Theorem lazy_first_missing_argument (argv : list string) :
  (1 <= length argv <= 5)%nat ->
  (forall (i : nat) (s : string), (1 <= i)%nat -> argv !! i = Some s ->
     if (i =? 3)%nat then exists theta, stod s = Std.Ret theta
     else exists v, Std.stoul s = Std.Ret v) ->
  run_main argv = Std.Undefined (Std.NullString (length argv)).
Proof.
  intros Hlen Hparse.
  destruct argv as [|prog [|a1 [|a2 [|a3 [|a4 [|a5 rest]]]]]];
    cbn in Hlen; try lia; unfold main;
    cbn [Std.arg Std.bind lookup list_lookup length Nat.eqb];
    try reflexivity.
  - destruct (Hparse 1%nat a1 ltac:(lia) eq_refl) as [v1 E1].
    rewrite E1. reflexivity.
  - destruct (Hparse 1%nat a1 ltac:(lia) eq_refl) as [v1 E1].
    destruct (Hparse 2%nat a2 ltac:(lia) eq_refl) as [v2 E2].
    rewrite E1. cbn [Std.bind]. rewrite E2. reflexivity.
  - destruct (Hparse 1%nat a1 ltac:(lia) eq_refl) as [v1 E1].
    destruct (Hparse 2%nat a2 ltac:(lia) eq_refl) as [v2 E2].
    destruct (Hparse 3%nat a3 ltac:(lia) eq_refl) as [v3 E3].
    rewrite E1. cbn [Std.bind]. rewrite E2. cbn [Std.bind].
    rewrite E3. reflexivity.
  - destruct (Hparse 1%nat a1 ltac:(lia) eq_refl) as [v1 E1].
    destruct (Hparse 2%nat a2 ltac:(lia) eq_refl) as [v2 E2].
    destruct (Hparse 3%nat a3 ltac:(lia) eq_refl) as [v3 E3].
    destruct (Hparse 4%nat a4 ltac:(lia) eq_refl) as [v4 E4].
    rewrite E1. cbn [Std.bind]. rewrite E2. cbn [Std.bind].
    rewrite E3. cbn [Std.bind]. rewrite E4. reflexivity.
Qed.

Lemma count_build_calls (g : @Gen rng) (n k : Z) (th : double) (ty : Z) (os : list Z) :
  length (List.filter is_build_tree (concat (map (calls_of g n k th ty) os)))
  = length os.
Proof.
  induction os as [|o os IH]; [reflexivity|].
  cbn [map concat]. rewrite List.filter_app, length_app, IH.
  unfold calls_of.
  destruct (o =? minorder), (ty =? 0), (ty =? 1); reflexivity.
Qed.

Lemma count_exact_calls (g : @Gen rng) (n k : Z) (th : double) (ty : Z) (os : list Z) :
  length (List.filter is_compute_field_exact
            (concat (map (calls_of g n k th ty) os)))
  = length (List.filter (fun o => o =? minorder) os).
Proof.
  induction os as [|o os IH]; [reflexivity|].
  cbn [map concat List.filter]. rewrite List.filter_app, length_app, IH.
  unfold calls_of.
  destruct (o =? minorder), (ty =? 0), (ty =? 1); reflexivity.
Qed.

Lemma count_approx_calls (g : @Gen rng) (n k : Z) (th : double) (ty : Z) (os : list Z) :
  length (List.filter is_compute_field_approx
            (concat (map (calls_of g n k th ty) os)))
  = if (ty =? 0) || (ty =? 1) then length os else O.
Proof.
  induction os as [|o os IH].
  - destruct ((ty =? 0) || (ty =? 1)); reflexivity.
  - cbn [map concat]. rewrite List.filter_app, length_app, IH.
    unfold calls_of.
    destruct (o =? minorder), (ty =? 0), (ty =? 1); reflexivity.
Qed.

Lemma orders_length (m : Z) : length (orders m) = Z.to_nat (m - minorder).
Proof. unfold orders. rewrite length_map, length_seq. reflexivity. Qed.

Lemma orders_minorder_once (m : Z) :
  length (List.filter (fun o => o =? minorder) (orders m))
  = if minorder <? m then 1%nat else O.
Proof.
  destruct (Z.ltb_spec minorder m) as [Hlt|Hge].
  - rewrite (orders_unfold m Hlt). cbn [List.filter]. rewrite Z.eqb_refl.
    cbn [length]. f_equal.
    match goal with |- length (List.filter ?p ?l) = _ =>
      assert (Hnone : List.filter p l = []) end.
    { induction (seq 0 (Z.to_nat (m - minorder - 1))) as [|k ks IH];
        [reflexivity|].
      cbn [map List.filter].
      destruct (Z.eqb_spec (minorder + 1 + Z.of_nat k) minorder); [lia | exact IH]. }
    rewrite Hnone. reflexivity.
  - unfold orders. replace (Z.to_nat (m - minorder)) with O by lia. reflexivity.
Qed.

Lemma string_length_app (s t : string) :
  String.length (s ++ t) = (String.length s + String.length t)%nat.
Proof.
  induction s as [|c s IH]; [reflexivity|].
  change (S (String.length (s ++ t)) = S (String.length s + String.length t)).
  rewrite IH. reflexivity.
Qed.

Lemma string_app_inv_tail (t : string) : forall s1 s2 : string,
  (s1 ++ t)%string = (s2 ++ t)%string -> s1 = s2.
Proof.
  induction s1 as [|c1 s1 IH]; intros [|c2 s2] H.
  - reflexivity.
  - apply (f_equal String.length) in H.
    rewrite !string_length_app in H. cbn [String.length] in H. lia.
  - apply (f_equal String.length) in H.
    rewrite !string_length_app in H. cbn [String.length] in H. lia.
  - change (String c1 (s1 ++ t) = String c2 (s2 ++ t))%string in H.
    injection H as -> H. f_equal. apply IH. exact H.
Qed.

Lemma filename_order_inj (o1 o2 n k : Z) (th : double) (ty : Z) :
  0 <= o1 -> 0 <= o2 ->
  filename to_string_double o1 n k th ty = filename to_string_double o2 n k th ty ->
  o1 = o2.
Proof.
  intros H1 H2 H. unfold filename in H.
  apply String.app_inj in H. apply string_app_inv_tail in H.
  unfold Std.to_string in H. apply pretty_N_inj in H. lia.
Qed.

Section Parsed.

Variables (prog a1 a2 a3 a4 a5 : string) (rest : list string).
Variables (N ncrit maxorder type : Z) (theta : double).
Hypothesis parse1 : Std.stoul a1 = Std.Ret N.
Hypothesis parse2 : Std.stoul a2 = Std.Ret ncrit.
Hypothesis parse3 : stod a3 = Std.Ret theta.
Hypothesis parse4 : Std.stoul a4 = Std.Ret maxorder.
Hypothesis parse5 : Std.stoul a5 = Std.Ret type.

Local Abbreviation argv := (prog :: a1 :: a2 :: a3 :: a4 :: a5 :: rest).
Local Abbreviation st := (setup next seed N).

Lemma returned_run (run : Run) :
  run_main argv = Std.Ret run ->
  granted alloc N
  /\ (maxorder <= minorder \/ 0 < N)
  /\ (forall o : Z, minorder <= o < maxorder ->
        exists t : Tree, build_tree (r st) (mu st) N ncrit o theta = inl t)
  /\ run = mkRun 0
       (map (file_of to_string_double put_double build_tree compute_field_exact
                     compute_field_fmm compute_field_bh st N ncrit theta type)
            (orders maxorder))
       (concat (map (calls_of st N ncrit theta type) (orders maxorder))).
Proof.
  exact (parsed_run alloc next seed stod to_string_double put_double build_tree
           compute_field_exact compute_field_fmm compute_field_bh
           prog a1 a2 a3 a4 a5 rest N ncrit maxorder type theta run
           parse1 parse2 parse3 parse4 parse5).
Qed.

(** With [maxorder <= 2] the loop body never runs: no tree is built, no
    field is computed, not even the reference field, and no file is
    written. Whatever [build_tree] would do, [main] returns 0 as soon as
    the storage of lines 32 to 43 is granted. *)
Theorem lazy_no_order_no_output :
  maxorder <= minorder ->
  (granted alloc N -> run_main argv = Std.Ret (mkRun 0 [] []))
  /\ (forall run : Run, run_main argv = Std.Ret run -> run = mkRun 0 [] []).
Proof.
  intros Hle.
  assert (Hnone : orders maxorder = []).
  { unfold orders. replace (Z.to_nat (maxorder - minorder)) with O by lia.
    reflexivity. }
  split.
  - intros Hg.
    rewrite (main_runs alloc next seed stod to_string_double put_double build_tree
               compute_field_exact compute_field_fmm compute_field_bh
               prog a1 a2 a3 a4 a5 rest N ncrit maxorder type theta
               parse1 parse2 parse3 parse4 parse5 Hg).
    + rewrite Hnone. reflexivity.
    + left. exact Hle.
    + intros o Ho. lia.
  - intros run Hmain. destruct (returned_run run Hmain) as (_ & _ & _ & ->).
    rewrite Hnone. reflexivity.
Qed.


(** A run that returns has made one [build_tree] call for every order,
    one call of the chosen approximate method for every order when the
    type is 0 or 1, and at most one call of [compute_field_exact]: the
    reference field is computed for the first order, 2, and reused by all
    later ones. *)
Theorem lazy_call_counts (run : Run) :
  run_main argv = Std.Ret run ->
  length (List.filter is_build_tree (calls run)) = Z.to_nat (maxorder - minorder)
  /\ length (List.filter is_compute_field_exact (calls run))
     = (if minorder <? maxorder then 1%nat else O)
  /\ (forall o : Z, In (call_compute_field_exact o) (calls run) -> o = minorder)
  /\ length (List.filter is_compute_field_approx (calls run))
     = (if (type =? 0) || (type =? 1) then Z.to_nat (maxorder - minorder) else O).
Proof.
  intros Hmain. destruct (returned_run run Hmain) as (_ & _ & _ & ->).
  cbn [calls].
  rewrite count_build_calls, count_exact_calls, count_approx_calls,
    orders_minorder_once, orders_length.
  split; [reflexivity|]. split; [reflexivity|]. split; [|reflexivity].
  intros o Hin. apply in_calls_of in Hin as (o' & _ & Hin).
  unfold calls_of in Hin. cbn [app In] in Hin.
  destruct Hin as [Hin | Hin]; [discriminate|].
  apply in_app_or in Hin as [Hin | Hin].
  - destruct (Z.eqb_spec o' minorder) as [Heq|]; cbn in Hin; [|contradiction].
    destruct Hin as [Hin | []]. congruence.
  - destruct (type =? 0); [|destruct (type =? 1)]; cbn in Hin;
      try contradiction; destruct Hin as [Hin | []]; discriminate.
Qed.

(** Within a run no two orders write to the same file name, so no report
    is overwritten by a later order. *)
Theorem lazy_file_names_distinct (run : Run) :
  run_main argv = Std.Ret run -> NoDup (map f_name (files run)).
Proof.
  intros Hmain. destruct (returned_run run Hmain) as (_ & _ & _ & ->).
  cbn [files].
  rewrite map_map. cbn [file_of f_name].
  apply (NoDup_fmap_2_strong (fun o => filename to_string_double o N ncrit theta type)).
  - intros o1 o2 Ho1 Ho2 Heq.
    apply list_elem_of_In, orders_range in Ho1.
    apply list_elem_of_In, orders_range in Ho2.
    unfold minorder in Ho1, Ho2.
    apply (filename_order_inj o1 o2 N ncrit theta type); [lia | lia | exact Heq].
  - unfold orders. apply (NoDup_fmap_2_strong (fun k => minorder + Z.of_nat k)).
    + intros k1 k2 _ _ Hk. lia.
    + apply NoDup_seq.
Qed.

(** Every [build_tree] call of a run that returns is handed the same two
    flat arrays of 3N initialised doubles, in which particle [i] owns the
    elements [3i], [3i+1], [3i+2] (first, second, third coordinate of its
    position in [r], of its moment in [mu]), together with the particle
    count, [ncrit] and [theta] of the command line; there is such a call
    for every order from 2 up to [maxorder - 1] and for no other. *)
Theorem lazy_build_tree_calls (run : Run) :
  run_main argv = Std.Ret run ->
  (forall order : Z, minorder <= order < maxorder ->
     In (call_build_tree (r st) (mu st) N ncrit order theta) (calls run))
  /\ (forall (positions moments : list (option double))
             (N' ncrit' order : Z) (theta' : double),
        In (call_build_tree positions moments N' ncrit' order theta') (calls run) ->
        positions = r st /\ moments = mu st
        /\ N' = N /\ ncrit' = ncrit /\ theta' = theta
        /\ minorder <= order < maxorder)
  /\ length (r st) = Z.to_nat (3 * N) /\ length (mu st) = Z.to_nat (3 * N)
  /\ (forall i c : nat, (i < Z.to_nat N)%nat -> (c < 3)%nat ->
        r st !! (3 * i + c)%nat
        = Some (Some (component c
              (position_of next (state_after next seed (6 * i)))))
        /\ mu st !! (3 * i + c)%nat
           = Some (Some (component c
                 (moment_of next (state_after next seed (6 * i)))))).
Proof.
  intros Hmain. destruct (returned_run run Hmain) as (Hg & _ & _ & ->).
  cbn [calls].
  pose proof (stoul_range _ _ parse1) as [HN0 _].
  assert (Hmax : 3 * N <= SIZE_MAX).
  { destruct Hg as (_ & _ & Ha & _).
    assert (Hp : Std.PTRDIFF_MAX / 8 = 2 ^ 60 - 1) by reflexivity.
    unfold SIZE_MAX, size_t_width. lia. }
  destruct (setup_arrays next seed N HN0 Hmax) as (Lr & Lmu & Hat).
  cbn zeta in *.
  split; [|split; [|split; [exact Lr | split; [exact Lmu | exact Hat]]]].
  - intros order Ho.
    apply in_calls_of. exists order. split; [apply orders_range; exact Ho|].
    unfold calls_of. left. reflexivity.
  - intros positions moments N' ncrit' order theta' Hin.
    apply in_calls_of in Hin as (o & Ho & Hin).
    apply orders_range in Ho. unfold calls_of in Hin.
    assert (Hc : call_build_tree positions moments N' ncrit' order theta'
                 = call_build_tree (r st) (mu st) N ncrit o theta).
    { cbn [app In] in Hin. destruct Hin as [Hin | Hin]; [congruence|].
      apply in_app_or in Hin as [Hin | Hin].
      - destruct (o =? minorder); cbn in Hin; [|contradiction].
        destruct Hin as [Hin|[]]; discriminate.
      - destruct (type =? 0); [|destruct (type =? 1)]; cbn in Hin;
          try contradiction; destruct Hin as [Hin|[]]; discriminate. }
    injection Hc as -> -> -> -> -> ->.
    repeat split; try reflexivity; lia.
Qed.

End Parsed.

Lemma orders_prefix (m1 m2 : Z) :
  m1 <= m2 -> exists more : list Z, orders m2 = orders m1 ++ more.
Proof.
  intros Hle. unfold orders.
  replace (Z.to_nat (m2 - minorder))
    with (Z.to_nat (m1 - minorder) + Z.to_nat (m2 - Z.max m1 minorder))%nat by lia.
  rewrite seq_app, map_app. eexists. reflexivity.
Qed.

(** Raising [maxorder] only adds to a run: when the run with the larger
    [maxorder] returns, so does the run with the smaller one, and its
    files and library calls are the first files and calls of the larger
    run, unchanged. *)
Theorem lazy_larger_maxorder_appends
      (prog a1 a2 a3 a4 a4' a5 : string) (rest rest' : list string)
      (N ncrit m1 m2 type : Z) (theta : double) (run2 : Run) :
  Std.stoul a1 = Std.Ret N -> Std.stoul a2 = Std.Ret ncrit ->
  stod a3 = Std.Ret theta ->
  Std.stoul a4 = Std.Ret m1 -> Std.stoul a4' = Std.Ret m2 ->
  Std.stoul a5 = Std.Ret type ->
  m1 <= m2 ->
  run_main (prog :: a1 :: a2 :: a3 :: a4' :: a5 :: rest') = Std.Ret run2 ->
  exists run1 : Run,
    run_main (prog :: a1 :: a2 :: a3 :: a4 :: a5 :: rest) = Std.Ret run1
    /\ files run1 `prefix_of` files run2
    /\ calls run1 `prefix_of` calls run2.
Proof.
  intros H1 H2 H3 H4 H4' H5 Hle Hmain.
  destruct (returned_run prog a1 a2 a3 a4' a5 rest' N ncrit m2 type theta
              H1 H2 H3 H4' H5 run2 Hmain) as (Hg & Hpos & Hb & ->).
  eexists. split.
  - apply (main_runs alloc next seed stod to_string_double put_double build_tree
             compute_field_exact compute_field_fmm compute_field_bh
             prog a1 a2 a3 a4 a5 rest N ncrit m1 type theta H1 H2 H3 H4 H5 Hg).
    + lia.
    + intros o Ho. apply Hb. lia.
  - cbn [files calls].
    destruct (orders_prefix m1 m2 Hle) as [more ->].
    rewrite !map_app, concat_app.
    split; eexists; reflexivity.
Qed.

End LazyMore.

Section LazyMoreWitness.

Import Word Lazy LazyTrace.
Local Open Scope Z_scope.

Lemma lazy_main_returns_iff_witness :
  let alloc := fun (_ : nat) (_ : Z) => true in
  let next := fun g : Z => (Double.zero, (g + 1)%Z) in
  let stod := fun _ : string => Std.Ret (Double.div (Double.of_Z 1) (Double.of_Z 2)) in
  let ts := fun _ : double => "0.500000"%string in
  let build := fun (_ _ : list (option double)) (_ _ _ : Z) (_ : double) =>
                 @inl unit Std.exn tt in
  let id_field := fun (_ : unit) (F : list double) => F in
  Std.stoul "-1" = Std.Ret (2 ^ 64 - 1)
  /\ Std.PTRDIFF_MAX / 8 < 2 ^ 64 - 1
  /\ main alloc next 0 stod ts ts build id_field id_field id_field
          ["lazy"; "-1"; "2"; "0.5"; "4"; "0"]%string
     = Std.Throws Std.length_error.
Proof.
  intros alloc next0 stod0 ts build id_field.
  assert (E1 : Std.stoul "-1" = Std.Ret (2 ^ 64 - 1)) by reflexivity.
  assert (E2 : Std.stoul "2" = Std.Ret 2) by reflexivity.
  assert (E4 : Std.stoul "4" = Std.Ret 4) by reflexivity.
  assert (E0 : Std.stoul "0" = Std.Ret 0) by reflexivity.
  assert (Hbig : Std.PTRDIFF_MAX / 8 < 2 ^ 64 - 1) by reflexivity.
  split; [exact E1|]. split; [exact Hbig|].
  exact (proj1 (proj2 (proj2 (proj2 (lazy_main_returns_iff alloc next0 0 stod0 ts ts
                         build id_field id_field id_field
                         ["lazy"; "-1"; "2"; "0.5"; "4"; "0"]%string)))
           "lazy" "-1" "2" "0.5" "4" "0" []%string (2 ^ 64 - 1) 2 4 0 _
           eq_refl E1 E2 eq_refl E4 E0) Hbig).
Defined.

Lemma lazy_argv_reads_witness :
  let alloc := fun (_ : nat) (_ : Z) => true in
  let next := fun g : Z => (Double.zero, (g + 1)%Z) in
  let stod := fun _ : string => Std.Ret (Double.div (Double.of_Z 1) (Double.of_Z 2)) in
  let ts := fun _ : double => "0.500000"%string in
  let build := fun (_ _ : list (option double)) (_ _ _ : Z) (_ : double) =>
                 @inl unit Std.exn tt in
  let id_field := fun (_ : unit) (F : list double) => F in
  (forall (s : string) (u : Std.undefined), stod s <> Std.Undefined u)
  /\ ["lazy"; "2"]%string <> []
  /\ forall i : nat,
       main alloc next 0 stod ts ts build id_field id_field id_field
            ["lazy"; "2"]%string <> Std.Undefined (Std.ArgvOverrun i).
Proof.
  intros alloc next0 stod0 ts build id_field.
  assert (Hs : forall (s : string) (u : Std.undefined), stod0 s <> Std.Undefined u)
    by (intros s u H; discriminate).
  assert (Hne : ["lazy"; "2"]%string <> []) by discriminate.
  split; [exact Hs|]. split; [exact Hne|].
  exact (proj1 (lazy_argv_reads alloc next0 0 stod0 ts ts build
                  id_field id_field id_field ["lazy"; "2"]%string Hs Hne)).
Defined.

Lemma lazy_first_missing_argument_witness :
  let alloc := fun (_ : nat) (_ : Z) => true in
  let next := fun g : Z => (Double.zero, (g + 1)%Z) in
  let stod := fun _ : string => Std.Ret (Double.div (Double.of_Z 1) (Double.of_Z 2)) in
  let ts := fun _ : double => "0.500000"%string in
  let build := fun (_ _ : list (option double)) (_ _ _ : Z) (_ : double) =>
                 @inl unit Std.exn tt in
  let id_field := fun (_ : unit) (F : list double) => F in
  let argv := ["lazy"; "2"; "2"]%string in
  (1 <= length argv <= 5)%nat
  /\ main alloc next 0 stod ts ts build id_field id_field id_field argv
     = Std.Undefined (Std.NullString 3).
Proof.
  intros alloc next0 stod0 ts build id_field argv.
  assert (Hlen : (1 <= length argv <= 5)%nat) by (cbn; lia).
  split; [exact Hlen|].
  apply (lazy_first_missing_argument alloc next0 0 stod0 ts ts build
           id_field id_field id_field argv Hlen).
  intros i s Hi Hl. destruct i as [|[|[|i]]]; cbn in Hl; try lia; try discriminate;
    injection Hl as <-; cbn; exists 2; reflexivity.
Defined.

Lemma lazy_no_order_no_output_witness :
  let alloc := fun (_ : nat) (_ : Z) => true in
  let next := fun g : Z => (Double.zero, (g + 1)%Z) in
  let stod := fun _ : string => Std.Ret (Double.div (Double.of_Z 1) (Double.of_Z 2)) in
  let ts := fun _ : double => "0.500000"%string in
  let build := fun (_ _ : list (option double)) (_ _ _ : Z) (_ : double) =>
                 @inl unit Std.exn tt in
  let id_field := fun (_ : unit) (F : list double) => F in
  Std.stoul "7" = Std.Ret 7 /\ Std.stoul "2" = Std.Ret 2
  /\ Std.stoul "0" = Std.Ret 0 /\ 2 <= minorder
  /\ forall run : Run,
       main alloc next 0 stod ts ts build id_field id_field id_field
            ["lazy"; "7"; "2"; "0.5"; "2"; "0"]%string = Std.Ret run ->
       run = mkRun 0 [] [].
Proof.
  intros alloc next0 stod0 ts build id_field.
  assert (E7 : Std.stoul "7" = Std.Ret 7) by reflexivity.
  assert (E2 : Std.stoul "2" = Std.Ret 2) by reflexivity.
  assert (E0 : Std.stoul "0" = Std.Ret 0) by reflexivity.
  assert (Hle : 2 <= minorder) by (unfold minorder; lia).
  repeat (split; [assumption|]).
  exact (proj2 (lazy_no_order_no_output alloc next0 0 stod0 ts ts build
                  id_field id_field id_field
                  "lazy" "7" "2" "0.5" "2" "0" [] 7 2 2 0 _
                  E7 E2 eq_refl E2 E0 Hle)).
Defined.


Lemma lazy_call_counts_witness :
  let alloc := fun (_ : nat) (_ : Z) => true in
  let next := fun g : Z => (Double.zero, (g + 1)%Z) in
  let stod := fun _ : string => Std.Ret (Double.div (Double.of_Z 1) (Double.of_Z 2)) in
  let ts := fun _ : double => "0.500000"%string in
  let build := fun (_ _ : list (option double)) (_ _ _ : Z) (_ : double) =>
                 @inl unit Std.exn tt in
  let id_field := fun (_ : unit) (F : list double) => F in
  Std.stoul "2" = Std.Ret 2 /\ Std.stoul "5" = Std.Ret 5
  /\ Std.stoul "1" = Std.Ret 1
  /\ exists run : Run,
       main alloc next 0 stod ts ts build id_field id_field id_field
            ["lazy"; "2"; "2"; "0.5"; "5"; "1"]%string = Std.Ret run
       /\ length (List.filter is_build_tree (calls run)) = Z.to_nat (5 - minorder).
Proof.
  intros alloc next0 stod0 ts build id_field.
  assert (E2 : Std.stoul "2" = Std.Ret 2) by reflexivity.
  assert (E5 : Std.stoul "5" = Std.Ret 5) by reflexivity.
  assert (E1 : Std.stoul "1" = Std.Ret 1) by reflexivity.
  repeat (split; [assumption|]).
  eexists. split; [vm_compute; reflexivity|].
  match goal with |- length (List.filter _ (calls ?run)) = _ =>
    assert (Hmain : main alloc next0 0 stod0 ts ts build id_field id_field id_field
                      ["lazy"; "2"; "2"; "0.5"; "5"; "1"]%string = Std.Ret run)
      by (vm_compute; reflexivity)
  end.
  exact (proj1 (lazy_call_counts alloc next0 0 stod0 ts ts build
                  id_field id_field id_field
                  "lazy" "2" "2" "0.5" "5" "1" [] 2 2 5 1 _
                  E2 E2 eq_refl E5 E1 _ Hmain)).
Defined.

Lemma lazy_file_names_distinct_witness :
  let alloc := fun (_ : nat) (_ : Z) => true in
  let next := fun g : Z => (Double.zero, (g + 1)%Z) in
  let stod := fun _ : string => Std.Ret (Double.div (Double.of_Z 1) (Double.of_Z 2)) in
  let ts := fun _ : double => "0.500000"%string in
  let build := fun (_ _ : list (option double)) (_ _ _ : Z) (_ : double) =>
                 @inl unit Std.exn tt in
  let id_field := fun (_ : unit) (F : list double) => F in
  Std.stoul "2" = Std.Ret 2 /\ Std.stoul "5" = Std.Ret 5
  /\ Std.stoul "1" = Std.Ret 1
  /\ exists run : Run,
       main alloc next 0 stod ts ts build id_field id_field id_field
            ["lazy"; "2"; "2"; "0.5"; "5"; "1"]%string = Std.Ret run
       /\ NoDup (map f_name (files run)).
Proof.
  intros alloc next0 stod0 ts build id_field.
  assert (E2 : Std.stoul "2" = Std.Ret 2) by reflexivity.
  assert (E5 : Std.stoul "5" = Std.Ret 5) by reflexivity.
  assert (E1 : Std.stoul "1" = Std.Ret 1) by reflexivity.
  repeat (split; [assumption|]).
  eexists. split; [vm_compute; reflexivity|].
  match goal with |- NoDup (map f_name (files ?run)) =>
    assert (Hmain : main alloc next0 0 stod0 ts ts build id_field id_field id_field
                      ["lazy"; "2"; "2"; "0.5"; "5"; "1"]%string = Std.Ret run)
      by (vm_compute; reflexivity)
  end.
  exact (lazy_file_names_distinct alloc next0 0 stod0 ts ts build
           id_field id_field id_field
           "lazy" "2" "2" "0.5" "5" "1" [] 2 2 5 1 _
           E2 E2 eq_refl E5 E1 _ Hmain).
Defined.

Lemma lazy_build_tree_calls_witness :
  let alloc := fun (_ : nat) (_ : Z) => true in
  let next := fun g : Z => (Double.of_Z (g mod 5 - 2), (g + 1)%Z) in
  let stod := fun _ : string => Std.Ret (Double.div (Double.of_Z 1) (Double.of_Z 2)) in
  let ts := fun _ : double => "0.500000"%string in
  let build := fun (_ _ : list (option double)) (_ _ _ : Z) (_ : double) =>
                 @inl unit Std.exn tt in
  let id_field := fun (_ : unit) (F : list double) => F in
  Std.stoul "2" = Std.Ret 2 /\ Std.stoul "3" = Std.Ret 3
  /\ Std.stoul "0" = Std.Ret 0
  /\ exists run : Run,
       main alloc next 0 stod ts ts build id_field id_field id_field
            ["lazy"; "2"; "2"; "0.5"; "3"; "0"]%string = Std.Ret run
       /\ length (r (setup next 0 2)) = Z.to_nat (3 * 2).
Proof.
  intros alloc next0 stod0 ts build id_field.
  assert (E2 : Std.stoul "2" = Std.Ret 2) by reflexivity.
  assert (E3 : Std.stoul "3" = Std.Ret 3) by reflexivity.
  assert (E0 : Std.stoul "0" = Std.Ret 0) by reflexivity.
  repeat (split; [assumption|]).
  eexists. split; [vm_compute; reflexivity|].
  match goal with |- length _ = _ =>
    assert (Hmain : main alloc next0 0 stod0 ts ts build id_field id_field id_field
                      ["lazy"; "2"; "2"; "0.5"; "3"; "0"]%string = Std.Ret _)
      by (vm_compute; reflexivity)
  end.
  exact (proj1 (proj2 (proj2 (lazy_build_tree_calls alloc next0 0 stod0 ts ts build
                  id_field id_field id_field
                  "lazy" "2" "2" "0.5" "3" "0" [] 2 2 3 0 _
                  E2 E2 eq_refl E3 E0 _ Hmain)))).
Defined.

Lemma lazy_larger_maxorder_appends_witness :
  let alloc := fun (_ : nat) (_ : Z) => true in
  let next := fun g : Z => (Double.zero, (g + 1)%Z) in
  let stod := fun _ : string => Std.Ret (Double.div (Double.of_Z 1) (Double.of_Z 2)) in
  let ts := fun _ : double => "0.500000"%string in
  let build := fun (_ _ : list (option double)) (_ _ _ : Z) (_ : double) =>
                 @inl unit Std.exn tt in
  let id_field := fun (_ : unit) (F : list double) => F in
  Std.stoul "2" = Std.Ret 2 /\ Std.stoul "3" = Std.Ret 3
  /\ Std.stoul "5" = Std.Ret 5 /\ Std.stoul "1" = Std.Ret 1 /\ 3 <= 5
  /\ exists run1 run2 : Run,
       main alloc next 0 stod ts ts build id_field id_field id_field
            ["lazy"; "2"; "2"; "0.5"; "3"; "1"]%string = Std.Ret run1
       /\ main alloc next 0 stod ts ts build id_field id_field id_field
               ["lazy"; "2"; "2"; "0.5"; "5"; "1"]%string = Std.Ret run2
       /\ files run1 `prefix_of` files run2.
Proof.
  intros alloc next0 stod0 ts build id_field.
  assert (E2 : Std.stoul "2" = Std.Ret 2) by reflexivity.
  assert (E3 : Std.stoul "3" = Std.Ret 3) by reflexivity.
  assert (E5 : Std.stoul "5" = Std.Ret 5) by reflexivity.
  assert (E1 : Std.stoul "1" = Std.Ret 1) by reflexivity.
  assert (Hle : 3 <= 5) by lia.
  repeat (split; [assumption|]).
  assert (Hmain : exists run2 : Run,
            main alloc next0 0 stod0 ts ts build id_field id_field id_field
                 ["lazy"; "2"; "2"; "0.5"; "5"; "1"]%string = Std.Ret run2)
    by (eexists; vm_compute; reflexivity).
  destruct Hmain as [run2 Hmain].
  destruct (lazy_larger_maxorder_appends alloc next0 0 stod0 ts ts build
              id_field id_field id_field
              "lazy" "2" "2" "0.5" "3" "5" "1" [] [] 2 2 3 5 1 _ run2
              E2 E2 eq_refl E3 E5 E1 Hle Hmain)
    as (run1 & Hr1 & Hf & _).
  exists run1, run2. repeat split; assumption.
Defined.

End LazyMoreWitness.
